(** * Read/write routing over a primary/replica pool pair

    A shallow embedding of the database-configuration module
    ([src/config/database.ts]), the session helpers ([src/lib/auth.ts]),
    the authentication middleware ([src/middleware/auth.ts]), the post
    routes ([src/routes/posts.ts]) and the health endpoint
    ([src/index.ts]) of the demo backend, followed by the properties the
    specification states about them.

    JavaScript code is embedded in a state-and-exception monad over a
    [World] that holds the object table (object identities), the console,
    the statements sent to each pool and the pools on which [end()] was
    called.  The libraries the code talks to ([pg], [better-auth], the
    process environment) are interfaces: type classes whose fields give
    the outcome of each external call. *)

From stdpp Require Import base gmap strings list numbers.

Local Open Scope string_scope.
Local Open Scope list_scope.

(** ** JavaScript values *)

(** A JS [number].  The code never computes with numbers, it only passes
    them on and tests them for truthiness, so the model keeps the integer
    values and [NaN]. *)
Inductive number :=
| NaN
| Num (z : Z).

#[global] Instance number_eq_dec : EqDecision number.
Proof. solve_decision. Defined.

Inductive JsVal :=
| VUndefined
| VNull
| VBool (b : bool)
| VNum (n : number)
| VStr (s : string)
| VDate (t : Z).

#[global] Instance JsVal_eq_dec : EqDecision JsVal.
Proof. solve_decision. Defined.

(** [a === b] on primitive values: [NaN] is not equal to itself. *)
Definition strict_eq (a b : JsVal) : bool :=
  match a, b with
  | VNum NaN, _ | _, VNum NaN => false
  | _, _ => bool_decide (a = b)
  end.

(** Truthiness, as used by [!x], [x || d], [x && y] and [if (x)]. *)
Definition truthy_number (n : number) : bool :=
  match n with
  | NaN => false
  | Num z => negb (z =? 0)%Z
  end.

Definition truthy_string (s : string) : bool :=
  negb (bool_decide (s = "")).

(** [x || d] where [x] is a possibly undefined string. *)
Definition or_string (x : option string) (d : string) : string :=
  match x with
  | Some s => if truthy_string s then s else d
  | None => d
  end.

(** [x || d] where [x] is a number. *)
Definition or_number (x : number) (d : number) : number :=
  if truthy_number x then x else d.

(** [x || d] where [x] is a possibly undefined number. *)
Definition or_opt_number (x : option number) (d : number) : number :=
  match x with
  | Some n => or_number n d
  | None => d
  end.

(** [x ?? d]: only [undefined] (and [null]) select the default. *)
Definition nullish {A} (x : option A) (d : A) : A :=
  match x with
  | Some a => a
  | None => d
  end.

(** A row returned by the query builder, and more generally a plain JS
    object used as a record of columns. *)
Abbreviation Row := (gmap string JsVal).

(** [obj.key], [undefined] when the property is absent. *)
Definition prop (obj : Row) (key : string) : JsVal :=
  default VUndefined (obj !! key).

(** ** Thrown values *)

(** The constructor an error object was built with; [instanceof] looks
    at it.  [UnauthorizedError extends Error]. *)
Inductive ErrorClass :=
| Error_
| UnauthorizedError_.

#[global] Instance ErrorClass_eq_dec : EqDecision ErrorClass.
Proof. solve_decision. Defined.

Record JsError := mkError {
  err_class : ErrorClass;
  err_name : string;
  err_message : string
}.

#[global] Instance JsError_eq_dec : EqDecision JsError.
Proof. solve_decision. Defined.

(** Anything can be thrown in JS, not only [Error] objects. *)
Inductive Thrown :=
| ThrownError (e : JsError)
| ThrownValue (v : JsVal).

#[global] Instance Thrown_eq_dec : EqDecision Thrown.
Proof. solve_decision. Defined.

Definition new_Error (message : string) : JsError :=
  mkError Error_ "Error" message.

(** [class UnauthorizedError extends Error], middleware/auth.ts:7-12. *)
Definition new_UnauthorizedError (message : option string) : JsError :=
  mkError UnauthorizedError_ "UnauthorizedError" (nullish message "Unauthorized").

Definition instanceof_Error (t : Thrown) : bool :=
  match t with
  | ThrownError _ => true
  | ThrownValue _ => false
  end.

Definition instanceof_UnauthorizedError (t : Thrown) : bool :=
  match t with
  | ThrownError e => bool_decide (err_class e = UnauthorizedError_)
  | ThrownValue _ => false
  end.

(** [error.message]: [undefined] on a thrown value that is not an error. *)
Definition error_message (t : Thrown) : option string :=
  match t with
  | ThrownError e => Some (err_message e)
  | ThrownValue _ => None
  end.

(** [error instanceof Error ? error.message : fallback] *)
Definition message_or (t : Thrown) (fallback : string) : string :=
  match t with
  | ThrownError e => err_message e
  | ThrownValue _ => fallback
  end.

(** ** Objects, statements and the world *)

(** Object identity: the index of the object in the object table. *)
Abbreviation loc := nat.

Inductive SslSetting :=
| SslFalse
| SslOptions (rejectUnauthorized : bool).

#[global] Instance SslSetting_eq_dec : EqDecision SslSetting.
Proof. solve_decision. Defined.

(** [PoolConfig] of [pg], with the fields the code sets. *)
Module PoolConfig.
Record t := mk {
  host : string;
  port : number;
  database : string;
  user : string;
  password : string;
  max : number;
  idleTimeoutMillis : number;
  connectionTimeoutMillis : number;
  ssl : SslSetting
}.
End PoolConfig.

Inductive Obj :=
| OPool (config : PoolConfig.t)
| ODrizzle (pool : loc).

(** What is sent to a pool.  [SqlText] is a raw [pool.query(text)]; the
    others are the query-builder chains of the route handlers;
    [AdapterStmt] is a statement issued by the auth library through the
    adapter it was configured with. *)
Inductive Stmt :=
| SqlText (text : string)
| SelectPosts (published : option bool) (limit offset : number)
| SelectPostById (id : string)
| SelectPostAuthorId (id : string)
| InsertPost (values : Row)
| UpdatePost (id : string) (changes : Row)
| DeletePost (id : string)
| AdapterStmt (text : string).

Inductive ConsoleLine :=
| console_log (text : string)
| console_error (text : string) (error : Thrown).

Record World := mkWorld {
  heap : list Obj;
  console : list ConsoleLine;
  issued : list (loc * Stmt);
  ending : list loc;
  clock : Z
}.

Definition with_heap (h : list Obj) (w : World) : World :=
  mkWorld h (console w) (issued w) (ending w) (clock w).
Definition with_console (c : list ConsoleLine) (w : World) : World :=
  mkWorld (heap w) c (issued w) (ending w) (clock w).
Definition with_issued (i : list (loc * Stmt)) (w : World) : World :=
  mkWorld (heap w) (console w) i (ending w) (clock w).
Definition with_ending (e : list loc) (w : World) : World :=
  mkWorld (heap w) (console w) (issued w) e (clock w).

(** The world once a line was printed, a statement was sent to a pool,
    [end()] was called on a pool. *)
Definition logged (l : ConsoleLine) (w : World) : World :=
  with_console (console w ++ [l]) w.
Definition sent (pool : loc) (s : Stmt) (w : World) : World :=
  with_issued (issued w ++ [(pool, s)]) w.
Definition ended (pool : loc) (w : World) : World :=
  with_ending (ending w ++ [pool]) w.

(** ** The monad of JS computations *)

Inductive Completion (A : Type) :=
| Normal (a : A)
| Throw (e : Thrown).
Arguments Normal {A} a.
Arguments Throw {A} e.

Definition M (A : Type) : Type := World -> Completion A * World.

Definition ret {A} (a : A) : M A := fun w => (Normal a, w).

Definition throw {A} (e : Thrown) : M A := fun w => (Throw e, w).

Definition bind {A B} (m : M A) (k : A -> M B) : M B :=
  fun w =>
    match m w with
    | (Normal a, w') => k a w'
    | (Throw e, w') => (Throw e, w')
    end.

(** [try { body } catch (error) { handler }] *)
Definition try_catch {A} (body : M A) (handler : Thrown -> M A) : M A :=
  fun w =>
    match body w with
    | (Normal a, w') => (Normal a, w')
    | (Throw e, w') => handler e w'
    end.

Notation "x <- m ;; k" := (bind m (fun x => k))
  (at level 100, m at next level, right associativity).
Notation "m ;;; k" := (bind m (fun _ => k))
  (at level 100, right associativity).

Definition get_world : M World := fun w => (Normal w, w).

Definition log (text : string) : M unit :=
  fun w => (Normal tt, logged (console_log text) w).

Definition log_error (text : string) (error : Thrown) : M unit :=
  fun w => (Normal tt, logged (console_error text error) w).

(** [new C(...)]: the object gets an identity no live object has. *)
Definition alloc (o : Obj) : M loc :=
  fun w => (Normal (length (heap w)), with_heap (heap w ++ [o]) w).

(** [new Date()] *)
Definition new_Date : M Z := fun w => (Normal (clock w), w).

(** A promise that has been started, with the instant at which it
    settles and how.  Only the order of the instants matters. *)
Record Promise (A : Type) := mkPromise {
  settles_at : nat;
  settled : Completion A
}.
Arguments mkPromise {A} _ _.
Arguments settles_at {A} _.
Arguments settled {A} _.

(** [await p] *)
Definition await {A} (p : Promise A) : M A :=
  fun w => (settled p, w).

(** The first promise of [ps] to reject, in settling order; among
    promises that settle at the same instant, the earlier in the list. *)
Fixpoint first_rejection {A} (ps : list (Promise A)) : option (nat * Thrown) :=
  match ps with
  | [] => None
  | p :: rest =>
    match settled p, first_rejection rest with
    | Throw e, Some (t, e') =>
      if (settles_at p <=? t)%nat then Some (settles_at p, e) else Some (t, e')
    | Throw e, None => Some (settles_at p, e)
    | Normal _, r => r
    end
  end.

Fixpoint fulfilled_values {A} (ps : list (Promise A)) : list A :=
  match ps with
  | [] => []
  | p :: rest =>
    match settled p with
    | Normal a => a :: fulfilled_values rest
    | Throw _ => fulfilled_values rest
    end
  end.

(** [Promise.all(ps)]: rejects as soon as one input rejects, with that
    input's reason; otherwise fulfils with all the values once the last
    input has. *)
Definition Promise_all {A} (ps : list (Promise A)) : Promise (list A) :=
  match first_rejection ps with
  | Some (t, e) => mkPromise t (Throw e)
  | None => mkPromise (foldr Nat.max 0%nat (settles_at <$> ps)) (Normal (fulfilled_values ps))
  end.

(** ** External collaborators *)

(** [process.env]. *)
Class Process := {
  process_env : gmap string string
}.

(** The builtin [Number(x)] applied to an environment entry (a string or
    [undefined]).  Its parsing of numeric literals is not modelled. *)
Class Builtins := {
  Number : option string -> number
}.

(** The [pg] pool.  A query or an [end()] settles as its environment
    dictates; the outcome may depend on everything that happened so far.
    [end()] hands back a promise, it does not throw on the spot. *)
Class Pg := {
  query_outcome : World -> loc -> Stmt -> Completion (list Row);
  end_outcome : World -> loc -> Promise unit
}.

(** [pool.query(...)], awaited: the statement is sent to [pool]. *)
Definition pool_query `{Pg} (pool : loc) (s : Stmt) : M (list Row) :=
  fun w => (query_outcome w pool s, sent pool s w).

(** [pool.end()]: the call is recorded and the promise returned. *)
Definition pool_end `{Pg} (pool : loc) : M (Promise unit) :=
  fun w => (Normal (end_outcome w pool), ended pool w).

(** [drizzle(pool, { schema })]: a new database object over [pool]. *)
Definition drizzle (pool : loc) : M loc := alloc (ODrizzle pool).

(** Awaiting a query-builder chain started from the database object
    [db]: the statement goes to the pool [db] was built over. *)
Definition execute `{Pg} (db : loc) (s : Stmt) : M (list Row) :=
  w <- get_world ;;
  match heap w !! db with
  | Some (ODrizzle pool) => pool_query pool s
  | _ => throw (ThrownError (mkError Error_ "TypeError" "not a database object"))
  end.

(** A call into the auth library, seen from the database: the library
    either finishes or asks its adapter to run a statement and goes on
    with what comes back.  It has no other access to a database. *)
Inductive LibRun (A : Type) :=
| LibDone (c : Completion A)
| LibAsk (text : string) (k : Completion (list Row) -> LibRun A).
Arguments LibDone {A} c.
Arguments LibAsk {A} text k.

Module User.
Record t := mk {
  id : string;
  name : string;
  email : string
}.
End User.

(** What [auth.api.getSession] resolves to when it is not [null]. *)
Module Session.
Record t := mk {
  token : string;
  user : option User.t
}.
End Session.

Class BetterAuth := {
  getSession_run : World -> gmap string string -> LibRun (option Session.t)
}.

(** ** src/config/database.ts *)

Module DatabaseConfig.
Record t := mk {
  host : string;
  port : number;
  database : string;
  user : string;
  password : string;
  max : option number;
  idleTimeoutMillis : option number;
  connectionTimeoutMillis : option number
}.
End DatabaseConfig.

(** database.ts:22-39 *)
Definition createPool `{Process} (config : DatabaseConfig.t) : M loc :=
  let poolConfig := {|
    PoolConfig.host := DatabaseConfig.host config;
    PoolConfig.port := DatabaseConfig.port config;
    PoolConfig.database := DatabaseConfig.database config;
    PoolConfig.user := DatabaseConfig.user config;
    PoolConfig.password := DatabaseConfig.password config;
    PoolConfig.max := nullish (DatabaseConfig.max config) (Num 20);
    PoolConfig.idleTimeoutMillis :=
      nullish (DatabaseConfig.idleTimeoutMillis config) (Num 30000);
    PoolConfig.connectionTimeoutMillis :=
      nullish (DatabaseConfig.connectionTimeoutMillis config) (Num 5000);
    PoolConfig.ssl :=
      if bool_decide (process_env !! "DB_SSL_ENABLED" = Some "true")
      then SslOptions false
      else SslFalse
  |} in
  alloc (OPool poolConfig).

(** database.ts:44-50 *)
Definition primaryConfig `{Process, Builtins} : DatabaseConfig.t := {|
  DatabaseConfig.host := or_string (process_env !! "DB_PRIMARY_HOST") "10.100.0.20";
  DatabaseConfig.port := or_number (Number (process_env !! "DB_PRIMARY_PORT")) (Num 5000);
  DatabaseConfig.database := or_string (process_env !! "DB_NAME") "demo_db";
  DatabaseConfig.user := or_string (process_env !! "DB_USER") "postgres";
  DatabaseConfig.password := or_string (process_env !! "DB_PASSWORD") "";
  DatabaseConfig.max := None;
  DatabaseConfig.idleTimeoutMillis := None;
  DatabaseConfig.connectionTimeoutMillis := None
|}.

(** database.ts:55-61 *)
Definition replicaConfig `{Process, Builtins} : DatabaseConfig.t := {|
  DatabaseConfig.host := or_string (process_env !! "DB_REPLICA_HOST") "10.100.0.20";
  DatabaseConfig.port := or_number (Number (process_env !! "DB_REPLICA_PORT")) (Num 5001);
  DatabaseConfig.database := or_string (process_env !! "DB_NAME") "demo_db";
  DatabaseConfig.user := or_string (process_env !! "DB_USER") "postgres";
  DatabaseConfig.password := or_string (process_env !! "DB_PASSWORD") "";
  DatabaseConfig.max := None;
  DatabaseConfig.idleTimeoutMillis := None;
  DatabaseConfig.connectionTimeoutMillis := None
|}.

(** The module's exported bindings, all [const]. *)
Class Database := {
  primaryPool : loc;
  replicaPool : loc;
  dbPrimary : loc;
  dbReplica : loc
}.

(** Evaluation of the module's top level, database.ts:64-69. *)
Definition database_ts `{Process, Builtins} : M Database :=
  primaryPool <- createPool primaryConfig ;;
  replicaPool <- createPool replicaConfig ;;
  dbPrimary <- drizzle primaryPool ;;
  dbReplica <- drizzle replicaPool ;;
  ret {| primaryPool := primaryPool; replicaPool := replicaPool;
         dbPrimary := dbPrimary; dbReplica := dbReplica |}.

Module Health.
Record t := mk {
  primary : bool;
  replica : bool
}.
Definition set_primary (b : bool) (r : t) : t := mk b (replica r).
Definition set_replica (b : bool) (r : t) : t := mk (primary r) b.
End Health.

(** database.ts:74-98.  [results] is a local object mutated in place;
    here it is threaded through the two [try] blocks. *)
Definition checkDatabaseHealth `{Pg, Database} : M Health.t :=
  let results := {| Health.primary := false; Health.replica := false |} in
  results <-
    try_catch
      (pool_query primaryPool (SqlText "SELECT 1") ;;;
       ret (Health.set_primary true results))
      (fun error =>
         log_error "Primary database health check failed:" error ;;;
         ret results) ;;
  results <-
    try_catch
      (pool_query replicaPool (SqlText "SELECT 1") ;;;
       ret (Health.set_replica true results))
      (fun error =>
         log_error "Replica database health check failed:" error ;;;
         ret results) ;;
  ret results.

(** database.ts:103-116.  Both [end()] calls are made while the array
    literal is evaluated, before [Promise.all] is awaited. *)
Definition closeDatabaseConnections `{Pg, Database} : M unit :=
  log "Closing database connections..." ;;;
  try_catch
    (p1 <- pool_end primaryPool ;;
     p2 <- pool_end replicaPool ;;
     await (Promise_all [p1; p2]) ;;;
     log "Database connections closed successfully")
    (fun error =>
       log_error "Error closing database connections:" error ;;;
       throw error).

(** database.ts:122-124 *)
Definition getDatabase `{Database} (isWrite : bool) : M loc :=
  ret (if isWrite then dbPrimary else dbReplica).

(** ** src/lib/auth.ts *)

(** The library runs its statements through the database object its
    adapter was built with. *)
Fixpoint run_adapter `{Pg} {A} (db : loc) (r : LibRun A) : M A :=
  match r with
  | LibDone c => fun w => (c, w)
  | LibAsk text k =>
    fun w =>
      let '(c, w') := execute db (AdapterStmt text) w in
      run_adapter db (k c) w'
  end.

(** auth.ts:10-19: [betterAuth({ database: drizzleAdapter(dbPrimary, ...) })]. *)
Definition auth_database `{Database} : loc := dbPrimary.

(** [auth.api.getSession({ headers })], awaited. *)
Definition auth_api_getSession `{Pg, Database, BetterAuth}
    (headers : gmap string string) : M (option Session.t) :=
  w <- get_world ;;
  run_adapter auth_database (getSession_run w headers).

(** auth.ts:66-81 *)
Definition verifySession `{Pg, Database, BetterAuth}
    (headers : gmap string string) : M (option Session.t) :=
  try_catch
    (session <- auth_api_getSession headers ;;
     match session with
     | None => ret None
     | Some s => ret (Some s)
     end)
    (fun error =>
       log_error "Session verification error:" error ;;;
       ret None).

(** auth.ts:86-89: [session?.user ?? null]. *)
Definition getUserFromSession `{Pg, Database, BetterAuth}
    (headers : gmap string string) : M (option User.t) :=
  session <- verifySession headers ;;
  ret (session ≫= Session.user).

(** ** src/middleware/auth.ts *)

(** [if (h) headers[key] = h] for a header read with [headers.get]. *)
Definition copy_header (key : string) (value : option string)
    (headers : gmap string string) : gmap string string :=
  match value with
  | Some v => if truthy_string v then <[key := v]> headers else headers
  | None => headers
  end.

(** middleware/auth.ts:18-44.  [request_headers] is [context.request.headers]. *)
Definition authMiddleware `{Pg, Database, BetterAuth}
    (request_headers : gmap string string) : M User.t :=
  let headers : gmap string string := ∅ in
  let authHeader := request_headers !! "authorization" in
  let cookieHeader := request_headers !! "cookie" in
  let headers := copy_header "authorization" authHeader headers in
  let headers := copy_header "cookie" cookieHeader headers in
  user <- getUserFromSession headers ;;
  match user with
  | None => throw (ThrownError (new_UnauthorizedError (Some "Authentication required")))
  | Some u => ret u
  end.

(** ** src/routes/posts.ts *)

Inductive Data :=
| DataRow (row : option Row)
| DataRows (rows : list Row).

(** What a handler hands back: [set.status] (200 unless assigned) and
    the JSON envelope it returns. *)
Module Response.
Record t := mk {
  status : Z;
  success : bool;
  message : option string;
  error : option string;
  data : option Data;
  pagination : option (number * number)
}.
End Response.

Definition respond (status : Z) (success : bool) (message : option string) : Response.t :=
  Response.mk status success message None None None.

Module PostsQuery.
Record t := mk {
  limit : option number;
  offset : option number;
  published : option bool
}.
End PostsQuery.

(** Body of POST /posts: [title] and [content] are required. *)
Module NewPostBody.
Record t := mk {
  title : string;
  content : string;
  published : option bool
}.
End NewPostBody.

(** Body of PATCH /posts/:id: every field is optional. *)
Module PostBody.
Record t := mk {
  title : option string;
  content : option string;
  published : option bool
}.
End PostBody.

(** [x || false] for a possibly undefined boolean. *)
Definition or_false (x : option bool) : bool :=
  match x with
  | Some b => b
  | None => false
  end.

(** [...(x && { key: x })] for a possibly undefined string [x]. *)
Definition spread_string (key : string) (x : option string) (o : Row) : Row :=
  match x with
  | Some s => if truthy_string s then <[key := VStr s]> o else o
  | None => o
  end.

(** [...(x !== undefined && { key: x })] for a possibly undefined boolean. *)
Definition spread_defined_bool (key : string) (x : option bool) (o : Row) : Row :=
  match x with
  | Some b => <[key := VBool b]> o
  | None => o
  end.

(** GET /posts, posts.ts:20-83 *)
Definition posts_GET `{Pg, Database} (query : PostsQuery.t) : M Response.t :=
  try_catch
    (let limit := or_opt_number (PostsQuery.limit query) (Num 10) in
     let offset := or_opt_number (PostsQuery.offset query) (Num 0) in
     let published := PostsQuery.published query in
     postList <- execute dbReplica (SelectPosts published limit offset) ;;
     ret (Response.mk 200 true None None (Some (DataRows postList))
            (Some (limit, offset))))
    (fun error =>
       log_error "Error fetching posts:" error ;;;
       ret (respond 200 false (Some "Failed to fetch posts"))).

(** GET /posts/:id, posts.ts:89-146 *)
Definition posts_GET_id `{Pg, Database} (id : string) : M Response.t :=
  try_catch
    (rows <- execute dbReplica (SelectPostById id) ;;
     match head rows with
     | None => ret (respond 404 false (Some "Post not found"))
     | Some post =>
       ret (Response.mk 200 true None None (Some (DataRow (Some post))) None)
     end)
    (fun error =>
       log_error "Error fetching post:" error ;;;
       ret (respond 500 false (Some "Failed to fetch post"))).

(** POST /posts, posts.ts:152-202 *)
Definition posts_POST `{Pg, Database} (body : NewPostBody.t) (user : User.t)
    : M Response.t :=
  try_catch
    (let values : Row :=
       {[ "title" := VStr (NewPostBody.title body);
          "content" := VStr (NewPostBody.content body);
          "published" := VBool (or_false (NewPostBody.published body));
          "authorId" := VStr (User.id user) ]} in
     rows <- execute dbPrimary (InsertPost values) ;;
     ret (Response.mk 201 true (Some "Post created successfully") None
            (Some (DataRow (head rows))) None))
    (fun error =>
       log_error "Error creating post:" error ;;;
       ret (respond 400 false (Some (message_or error "Failed to create post")))).

(** PATCH /posts/:id, posts.ts:208-284 *)
Definition posts_PATCH_id `{Pg, Database} (id : string) (body : PostBody.t)
    (user : User.t) : M Response.t :=
  try_catch
    (rows <- execute dbPrimary (SelectPostAuthorId id) ;;
     match head rows with
     | None => ret (respond 404 false (Some "Post not found"))
     | Some existingPost =>
       if negb (strict_eq (prop existingPost "authorId") (VStr (User.id user)))
       then ret (respond 403 false (Some "You can only update your own posts"))
       else
         now <- new_Date ;;
         let changes : Row :=
           <["updatedAt" := VDate now]>
             (spread_defined_bool "published" (PostBody.published body)
                (spread_string "content" (PostBody.content body)
                   (spread_string "title" (PostBody.title body) ∅))) in
         updated <- execute dbPrimary (UpdatePost id changes) ;;
         ret (Response.mk 200 true (Some "Post updated successfully") None
                (Some (DataRow (head updated))) None)
     end)
    (fun error =>
       log_error "Error updating post:" error ;;;
       ret (respond 400 false (Some (message_or error "Failed to update post")))).

(** DELETE /posts/:id, posts.ts:290-346 *)
Definition posts_DELETE_id `{Pg, Database} (id : string) (user : User.t)
    : M Response.t :=
  try_catch
    (rows <- execute dbPrimary (SelectPostAuthorId id) ;;
     match head rows with
     | None => ret (respond 404 false (Some "Post not found"))
     | Some existingPost =>
       if negb (strict_eq (prop existingPost "authorId") (VStr (User.id user)))
       then ret (respond 403 false (Some "You can only delete your own posts"))
       else
         execute dbPrimary (DeletePost id) ;;;
         ret (respond 200 true (Some "Post deleted successfully"))
     end)
    (fun error =>
       log_error "Error deleting post:" error ;;;
       ret (respond 400 false (Some (message_or error "Failed to delete post")))).

(** The error codes the framework passes to [onError]. *)
Inductive ErrorCode :=
| VALIDATION
| NOT_FOUND
| PARSE
| INTERNAL_SERVER_ERROR
| UNKNOWN.

(** [.onError] of the post routes, posts.ts:349-380 *)
Definition posts_onError (code : ErrorCode) (error : Thrown) : Response.t :=
  if instanceof_UnauthorizedError error then
    respond 401 false (error_message error)
  else
    match code with
    | VALIDATION =>
      Response.mk 400 false (Some "Validation error") (error_message error)
        None None
    | NOT_FOUND => respond 404 false (Some "Route not found")
    | _ => respond 500 false (Some "Internal server error")
    end.

(** The requests the post routes serve, after validation. *)
Inductive PostsRequest :=
| GET_posts (query : PostsQuery.t)
| GET_posts_id (id : string)
| POST_posts (body : NewPostBody.t)
| PATCH_posts_id (id : string) (body : PostBody.t)
| DELETE_posts_id (id : string).

Definition posts_handler `{Pg, Database} (r : PostsRequest) (user : User.t)
    : M Response.t :=
  match r with
  | GET_posts query => posts_GET query
  | GET_posts_id id => posts_GET_id id
  | POST_posts body => posts_POST body user
  | PATCH_posts_id id body => posts_PATCH_id id body user
  | DELETE_posts_id id => posts_DELETE_id id user
  end.

(** What the chain [new Elysia({ prefix: '/posts' })] of posts.ts:12-380
    registers, in the order of the source. *)
Inductive PostsRoute :=
| route_GET
| route_GET_id
| route_POST
| route_PATCH_id
| route_DELETE_id.

#[global] Instance PostsRoute_eq_dec : EqDecision PostsRoute.
Proof. solve_decision. Defined.

Inductive Registered :=
| derive_authMiddleware
| route (r : PostsRoute)
| onError_handler.

#[global] Instance Registered_eq_dec : EqDecision Registered.
Proof. solve_decision. Defined.

Definition postRoutes_chain : list Registered :=
  [derive_authMiddleware;
   route route_GET; route route_GET_id; route route_POST;
   route route_PATCH_id; route route_DELETE_id;
   onError_handler].

(** The framework applies a lifecycle hook to the routes registered
    after it: the hooks in force for a route are the ones that precede
    it in the chain. *)
Fixpoint hooks_of (r : PostsRoute) (chain : list Registered) : list Registered :=
  match chain with
  | [] => []
  | x :: rest => if bool_decide (x = route r) then [] else x :: hooks_of r rest
  end.

Definition route_of (r : PostsRequest) : PostsRoute :=
  match r with
  | GET_posts _ => route_GET
  | GET_posts_id _ => route_GET_id
  | POST_posts _ => route_POST
  | PATCH_posts_id _ _ => route_PATCH_id
  | DELETE_posts_id _ => route_DELETE_id
  end.

(** How a request ends: with the JSON envelope of the handler or of an
    error hook, or, when an error meets no error hook, with the
    framework's own answer to that error, status 500. *)
Inductive RouteAnswer :=
| Handled (response : Response.t)
| Unhandled (error : Thrown).


(** A request that passed the route's validation, as the framework runs
    it: [.derive(authMiddleware)], registered first and so in force for
    every route, then the handler with the derived [user].  What either
    throws goes to [.onError] when that hook is in force for the route,
    with code [UNKNOWN] for an error class the framework does not know,
    and is left to the framework otherwise. *)
Definition postRoutes `{Pg, Database, BetterAuth}
    (request_headers : gmap string string) (r : PostsRequest) : M RouteAnswer :=
  let hooks := hooks_of (route_of r) postRoutes_chain in
  try_catch
    (user <- authMiddleware request_headers ;;
     response <- posts_handler r user ;;
     ret (Handled response))
    (fun error =>
       if bool_decide (onError_handler ∈ hooks)
       then ret (Handled (posts_onError UNKNOWN error))
       else ret (Unhandled error)).

(** ** src/index.ts *)

Definition connected (up : bool) : string :=
  if up then "connected" else "disconnected".

Module HealthResponse.
Record t := mk {
  status : Z;
  success : bool;
  status_text : string;
  timestamp : Z;
  database : option (string * string);
  error : option string
}.
End HealthResponse.

(** GET /health, index.ts:31-54.  [database] is the pair
    [(primary, replica)] of the [database] object of the body;
    [timestamp] is the instant [toISOString()] renders. *)
Definition health_GET `{Pg, Database} : M HealthResponse.t :=
  try_catch
    (dbHealth <- checkDatabaseHealth ;;
     let isHealthy := Health.primary dbHealth && Health.replica dbHealth in
     now <- new_Date ;;
     ret {| HealthResponse.status := if isHealthy then 200 else 503;
            HealthResponse.success := isHealthy;
            HealthResponse.status_text := if isHealthy then "healthy" else "unhealthy";
            HealthResponse.timestamp := now;
            HealthResponse.database :=
              Some (connected (Health.primary dbHealth),
                    connected (Health.replica dbHealth));
            HealthResponse.error := None |})
    (fun error =>
       now <- new_Date ;;
       ret {| HealthResponse.status := 503;
              HealthResponse.success := false;
              HealthResponse.status_text := "unhealthy";
              HealthResponse.timestamp := now;
              HealthResponse.database := None;
              HealthResponse.error := Some (message_or error "Unknown error") |}).

(** ** src/routes/auth.ts *)

(** The other entry points of [auth.api] the routes call.  Each resolves
    to a response object or to nothing. *)
Module SignUpBody.
Record t := mk {
  email : string;
  password : string;
  name : string
}.
End SignUpBody.

Module LoginBody.
Record t := mk {
  email : string;
  password : string
}.
End LoginBody.

Class BetterAuthApi := {
  signUpEmail_run : World -> SignUpBody.t -> gmap string string -> LibRun (option Row);
  signInEmail_run : World -> LoginBody.t -> gmap string string -> LibRun (option Row);
  signOut_run : World -> gmap string string -> LibRun (option Row)
}.

(** [auth.api.signUpEmail({ body, headers })], awaited. *)
Definition auth_api_signUpEmail `{Pg, Database, BetterAuthApi}
    (body : SignUpBody.t) (headers : gmap string string) : M (option Row) :=
  w <- get_world ;;
  run_adapter auth_database (signUpEmail_run w body headers).

(** [auth.api.signInEmail({ body, headers })], awaited. *)
Definition auth_api_signInEmail `{Pg, Database, BetterAuthApi}
    (body : LoginBody.t) (headers : gmap string string) : M (option Row) :=
  w <- get_world ;;
  run_adapter auth_database (signInEmail_run w body headers).

(** [auth.api.signOut({ headers })], awaited. *)
Definition auth_api_signOut `{Pg, Database, BetterAuthApi}
    (headers : gmap string string) : M (option Row) :=
  w <- get_world ;;
  run_adapter auth_database (signOut_run w headers).

Inductive AuthData :=
| DataResponse (response : Row)
| DataUser (user : User.t).

Module AuthResponse.
Record t := mk {
  status : Z;
  success : bool;
  message : option string;
  error : option string;
  data : option AuthData
}.
End AuthResponse.

(** POST /auth/signup, routes/auth.ts:14-59.  [set.status] is never
    assigned. *)
Definition auth_POST_signup `{Pg, Database, BetterAuthApi}
    (body : SignUpBody.t) (request_headers : gmap string string)
    : M AuthResponse.t :=
  try_catch
    (response <-
       auth_api_signUpEmail
         (SignUpBody.mk (SignUpBody.email body) (SignUpBody.password body)
            (SignUpBody.name body))
         request_headers ;;
     match response with
     | None =>
       ret (AuthResponse.mk 200 false (Some "Failed to create account") None None)
     | Some r =>
       ret (AuthResponse.mk 200 true (Some "Account created successfully") None
              (Some (DataResponse r)))
     end)
    (fun error =>
       log_error "Signup error:" error ;;;
       ret (AuthResponse.mk 200 false (Some (message_or error "Signup failed"))
              None None)).

(** POST /auth/login, routes/auth.ts:65-110 *)
Definition auth_POST_login `{Pg, Database, BetterAuthApi}
    (body : LoginBody.t) (request_headers : gmap string string)
    : M AuthResponse.t :=
  try_catch
    (response <-
       auth_api_signInEmail
         (LoginBody.mk (LoginBody.email body) (LoginBody.password body))
         request_headers ;;
     match response with
     | None => ret (AuthResponse.mk 401 false (Some "Invalid credentials") None None)
     | Some r =>
       ret (AuthResponse.mk 200 true (Some "Login successful") None
              (Some (DataResponse r)))
     end)
    (fun error =>
       log_error "Login error:" error ;;;
       ret (AuthResponse.mk 401 false (Some (message_or error "Login failed"))
              None None)).

(** POST /auth/logout, routes/auth.ts:116-143 *)
Definition auth_POST_logout `{Pg, Database, BetterAuthApi}
    (request_headers : gmap string string) : M AuthResponse.t :=
  try_catch
    (auth_api_signOut request_headers ;;;
     ret (AuthResponse.mk 200 true (Some "Logout successful") None None))
    (fun error =>
       log_error "Logout error:" error ;;;
       ret (AuthResponse.mk 200 false (Some (message_or error "Logout failed"))
              None None)).

(** GET /auth/me, routes/auth.ts:150-191 *)
Definition auth_GET_me `{Pg, Database, BetterAuth}
    (request_headers : gmap string string) : M AuthResponse.t :=
  try_catch
    (let headers : gmap string string := ∅ in
     let authHeader := request_headers !! "authorization" in
     let cookieHeader := request_headers !! "cookie" in
     let headers := copy_header "authorization" authHeader headers in
     let headers := copy_header "cookie" cookieHeader headers in
     user <- getUserFromSession headers ;;
     match user with
     | None => ret (AuthResponse.mk 401 false (Some "Unauthorized") None None)
     | Some u => ret (AuthResponse.mk 200 true None None (Some (DataUser u)))
     end)
    (fun error =>
       log_error "Get user error:" error ;;;
       ret (AuthResponse.mk 401 false (Some (message_or error "Failed to get user"))
              None None)).

(** [.onError] of the auth routes, routes/auth.ts:194-217 *)
Definition auth_onError (code : ErrorCode) (error : Thrown) : AuthResponse.t :=
  if instanceof_UnauthorizedError error then
    AuthResponse.mk 401 false (error_message error) None None
  else
    match code with
    | VALIDATION =>
      AuthResponse.mk 400 false (Some "Validation error") (error_message error) None
    | _ => AuthResponse.mk 500 false (Some "Internal server error") None None
    end.

(** ** src/index.ts, the variant with /health/db and gracefulShutdown *)

Module HealthDbResponse.
Record t := mk {
  status : Z;
  success : bool;
  primary : option (string * bool);
  replica : option (string * bool);
  timestamp : Z;
  error : option string
}.
End HealthDbResponse.

(** GET /health/db.  [primary] and [replica] are the pairs
    [(status, healthy)] of the body. *)
Definition health_db_GET `{Pg, Database} : M HealthDbResponse.t :=
  try_catch
    (dbHealth <- checkDatabaseHealth ;;
     let isHealthy := Health.primary dbHealth && Health.replica dbHealth in
     now <- new_Date ;;
     ret {| HealthDbResponse.status := if isHealthy then 200 else 503;
            HealthDbResponse.success := isHealthy;
            HealthDbResponse.primary :=
              Some (connected (Health.primary dbHealth), Health.primary dbHealth);
            HealthDbResponse.replica :=
              Some (connected (Health.replica dbHealth), Health.replica dbHealth);
            HealthDbResponse.timestamp := now;
            HealthDbResponse.error := None |})
    (fun error =>
       now <- new_Date ;;
       ret {| HealthDbResponse.status := 503;
              HealthDbResponse.success := false;
              HealthDbResponse.primary := None;
              HealthDbResponse.replica := None;
              HealthDbResponse.timestamp := now;
              HealthDbResponse.error := Some (message_or error "Unknown error") |}).

(** How a signal handler ends: [process.exit(code)] was called, or the
    handler's promise rejected without any call to [process.exit]. *)
Inductive HandlerEnd :=
| Exits (code : Z)
| Rejects (e : Thrown).

Definition newline : string := String (Ascii.ascii_of_nat 10) "".

(** [gracefulShutdown(signal)].  [process.exit] does not return, so
    nothing runs after it. *)
Definition gracefulShutdown `{Pg, Database} (signal : string)
    : World -> HandlerEnd * World :=
  fun w =>
    let '(_, w0) :=
      log (newline +:+ signal +:+ " received. Starting graceful shutdown...") w in
    match closeDatabaseConnections w0 with
    | (Normal _, w1) =>
      let '(_, w2) := log "Graceful shutdown completed" w1 in
      (Exits 0, w2)
    | (Throw error, w1) =>
      let '(_, w2) := log_error "Error during graceful shutdown:" error w1 in
      (Exits 1, w2)
    end.

(** ** src/index.ts, the variant with inline signal handlers *)

(** The handler registered for SIGINT and for SIGTERM: no [try]. *)
Definition on_signal `{Pg, Database} : World -> HandlerEnd * World :=
  fun w =>
    match (log (newline +:+ "Shutting down...") ;;; closeDatabaseConnections) w with
    | (Normal _, w1) => (Exits 0, w1)
    | (Throw error, w1) => (Rejects error, w1)
    end.

(** ** Observations used by the statements *)

Definition is_normal {A} (c : Completion A) : bool :=
  match c with
  | Normal _ => true
  | Throw _ => false
  end.

(** A call is rejected when it completes by throwing. *)
Definition rejected {A} (c : Completion A) : Prop :=
  exists e, c = Throw e.

(** An error is reported by a run when it is what the run throws or
    when it is on the console afterwards. *)
Definition reported {A} (e : Thrown) (run : Completion A * World) : Prop :=
  run.1 = Throw e \/ exists text, console_error text e ∈ console run.2.

(** The statements a computation sends when started in [w], in order. *)
Definition sent_by {A} (m : M A) (w : World) : list (loc * Stmt) :=
  drop (length (issued w)) (issued (m w).2).

(** The configuration the pool object [p] was built with. *)
Definition pool_config (w : World) (p : loc) : option PoolConfig.t :=
  match heap w !! p with
  | Some (OPool c) => Some c
  | _ => None
  end.

(** The configuration of the pool a constructor call returns. *)
Definition built_config (m : M loc) (w : World) : option PoolConfig.t :=
  match m w with
  | (Normal p, w') => pool_config w' p
  | (Throw _, _) => None
  end.

(** The TLS setting the process environment asks for. *)
Definition process_ssl `{Process} : SslSetting :=
  if bool_decide (process_env !! "DB_SSL_ENABLED" = Some "true")
  then SslOptions false
  else SslFalse.

(** What a [catch] block that only logs leaves on the console. *)
Definition swallowed {A} (text : string) (o : Completion A) : list ConsoleLine :=
  match o with
  | Normal _ => []
  | Throw e => [console_error text e]
  end.

(** The module's objects are in the object table: two database objects,
    each over its own pool. *)
Definition loaded `{Database} (w : World) : Prop :=
  heap w !! dbPrimary = Some (ODrizzle primaryPool) /\
  heap w !! dbReplica = Some (ODrizzle replicaPool) /\
  primaryPool <> replicaPool.

(** A statement that went to the primary pool, hence not to the replica. *)
Definition on_primary `{Database} (x : loc * Stmt) : Prop :=
  x.1 = primaryPool /\ x.1 <> replicaPool.

(** Started with the module loaded, the computation leaves it loaded
    and sends statements to the primary pool only. *)
Definition pinned `{Database} {A} (m : M A) : Prop :=
  forall w, loaded w ->
    loaded (m w).2 /\
    exists l, issued (m w).2 = issued w ++ l /\ Forall on_primary l.

(** The headers the middleware passes on, middleware/auth.ts:19-31. *)
Definition forwarded_headers (request_headers : gmap string string)
    : gmap string string :=
  copy_header "cookie" (request_headers !! "cookie")
    (copy_header "authorization" (request_headers !! "authorization") ∅).

(** The property that the TLS setting of a pool is a function of the
    configuration record it is built from, whatever the process
    environment. *)
Definition ssl_from_config : Prop :=
  exists tls_of : DatabaseConfig.t -> SslSetting,
    forall (P : Process) (config : DatabaseConfig.t) (w : World),
      PoolConfig.ssl <$> built_config (@createPool P config) w = Some (tls_of config).

(** A call to one of the functions database.ts exports. *)
Inductive Call :=
| call_getDatabase (isWrite : bool)
| call_checkDatabaseHealth
| call_closeDatabaseConnections.

Definition run_call `{Pg, Database} (c : Call) (w : World) : World :=
  match c with
  | call_getDatabase isWrite => (getDatabase isWrite w).2
  | call_checkDatabaseHealth => (checkDatabaseHealth w).2
  | call_closeDatabaseConnections => (closeDatabaseConnections w).2
  end.

Definition run_calls `{Pg, Database} (cs : list Call) (w : World) : World :=
  foldl (fun w c => run_call c w) w cs.

(** ** A concrete process, for examples *)

Module Sample.

Definition empty_world : World := mkWorld [] [] [] [] 0.

(** [Number] on [undefined], on the empty string and on strings of
    decimal digits, which is all the examples give it. *)
Definition digit (a : Ascii.ascii) : option Z :=
  let n := Z.of_nat (Ascii.nat_of_ascii a) in
  if ((48 <=? n)%Z && (n <=? 57)%Z)%bool then Some (n - 48)%Z else None.

Fixpoint digits (s : string) (acc : Z) : option Z :=
  match s with
  | EmptyString => Some acc
  | String a rest =>
    match digit a with
    | Some d => digits rest (10 * acc + d)%Z
    | None => None
    end
  end.

Definition builtins : Builtins :=
  {| Number x :=
       match x with
       | None => NaN
       | Some s => from_option Num NaN (digits s 0)
       end |}.

(** No variable set: every default applies. *)
Definition bare : Process := {| process_env := ∅ |}.

(** TLS switched on. *)
Definition tls : Process :=
  {| process_env := {[ "DB_SSL_ENABLED" := "true" ]} |}.

(** Both pools pointed at the same host and port. *)
Definition same_endpoint : Process :=
  {| process_env := {[ "DB_PRIMARY_HOST" := "10.0.0.7";
                       "DB_REPLICA_HOST" := "10.0.0.7";
                       "DB_PRIMARY_PORT" := "6432";
                       "DB_REPLICA_PORT" := "6432" ]} |}.

(** The bindings the module gets when loaded into the empty world. *)
Definition database : Database :=
  {| primaryPool := 0; replicaPool := 1; dbPrimary := 2; dbReplica := 3 |}.

Definition live_world : World := (@database_ts bare builtins empty_world).2.

Definition refused : Thrown := ThrownError (new_Error "connect ECONNREFUSED").
Definition timed_out : Thrown := ThrownError (new_Error "timeout exceeded").

Definition author_row (author : string) : Row := {[ "authorId" := VStr author ]}.

(** Every query succeeds; a post belongs to "u1". *)
Definition pg_up : Pg :=
  {| query_outcome _ _ s :=
       match s with
       | SelectPostAuthorId _ => Normal [author_row "u1"]
       | _ => Normal []
       end;
     end_outcome _ _ := mkPromise 1 (Normal tt) |}.

(** The primary refuses connections; the replica answers. *)
Definition pg_primary_down : Pg :=
  {| query_outcome _ pool _ :=
       if bool_decide (pool = 0%nat) then Throw refused else Normal [];
     end_outcome _ _ := mkPromise 1 (Normal tt) |}.

(** Both [end()] calls fail, the primary's first. *)
Definition pg_end_fails : Pg :=
  {| query_outcome _ _ _ := Normal [];
     end_outcome _ pool :=
       if bool_decide (pool = 0%nat)
       then mkPromise 1 (Throw refused)
       else mkPromise 2 (Throw timed_out) |}.

Definition alice : User.t := User.mk "u1" "Alice" "alice@example.com".

Definition retitle : PostBody.t := PostBody.mk (Some "New title") None None.

Definition config : DatabaseConfig.t :=
  DatabaseConfig.mk "10.100.0.20" (Num 5000) "demo_db" "postgres" "" None None None.

(** An auth library that looks the session token up once. *)
Definition better_auth : BetterAuth :=
  {| getSession_run _ headers :=
       match headers !! "cookie" with
       | None => LibDone (Normal None)
       | Some cookie =>
         LibAsk "select session by token"
           (fun c =>
              match c with
              | Normal (_ :: _) =>
                LibDone (Normal (Some (Session.mk cookie (Some alice))))
              | Normal [] => LibDone (Normal None)
              | Throw e => LibDone (Throw e)
              end)
       end |}.

(** An auth library whose session lookup always throws. *)
Definition better_auth_broken : BetterAuth :=
  {| getSession_run _ _ := LibDone (Throw refused) |}.

End Sample.

(** ** Further observations *)

(** Statements that change the posts table. *)
Definition is_write (s : Stmt) : bool :=
  match s with
  | InsertPost _ | UpdatePost _ _ | DeletePost _ => true
  | _ => false
  end.

(** Statements of the auth library. *)
Definition is_adapter (s : Stmt) : bool :=
  match s with
  | AdapterStmt _ => true
  | _ => false
  end.

(** What the ownership read of PATCH and DELETE /posts/:id finds in
    [w]: a first row whose [authorId] is this user's id. *)
Definition author_confirmed `{Pg, Database} (id : string) (user : User.t)
    (w : World) : bool :=
  match (execute dbPrimary (SelectPostAuthorId id) w).1 with
  | Normal (row :: _) => strict_eq (prop row "authorId") (VStr (User.id user))
  | _ => false
  end.

(** A statement that went to the replica pool, hence not to the primary. *)
Definition on_replica `{Database} (x : loc * Stmt) : Prop :=
  x.1 = replicaPool /\ x.1 <> primaryPool.

(** The value a non-empty string field is written with, if at all. *)
Definition written_string (x : option string) : option JsVal :=
  match x with
  | Some s => if truthy_string s then Some (VStr s) else None
  | None => None
  end.

(** The row POST /posts inserts. *)
Definition new_post_values (body : NewPostBody.t) (user : User.t) : Row :=
  {[ "title" := VStr (NewPostBody.title body);
     "content" := VStr (NewPostBody.content body);
     "published" := VBool (or_false (NewPostBody.published body));
     "authorId" := VStr (User.id user) ]}.

(** A header as the middleware passes it on: dropped when empty. *)
Definition kept (value : option string) : option string :=
  match value with
  | Some v => if truthy_string v then Some v else None
  | None => None
  end.



(** The shapes a post route's answer can take. *)
Definition well_formed (r : Response.t) : Prop :=
  (Response.success r = true /\
   (Response.status r = 200 \/ Response.status r = 201)%Z) \/
  (Response.success r = false /\
   (Response.status r = 200 \/ Response.status r = 400 \/ Response.status r = 401 \/
    Response.status r = 403 \/ Response.status r = 404 \/ Response.status r = 500)%Z).

(** Whether a probe succeeds depends on the moment it is made only
    through the pools on which [end()] was called by then. *)
Definition probes_follow_ending `{Pg} : Prop :=
  forall (w1 w2 : World) (pool : loc) (s : Stmt),
    ending w1 = ending w2 ->
    is_normal (query_outcome w1 pool s) = is_normal (query_outcome w2 pool s).

Definition is_shutdown (c : Call) : bool :=
  match c with
  | call_closeDatabaseConnections => true
  | _ => false
  end.


(** The two [end()] promises of a shutdown started in [w] both fulfil. *)
Definition both_end_fulfil `{Pg, Database} (w : World) : Prop :=
  is_normal (settled (end_outcome w primaryPool)) = true /\
  is_normal (settled (end_outcome (ended primaryPool w) replicaPool)) = true.

(** ** More concrete cases *)

Module Scenario.

Definition bob : User.t := User.mk "u2" "Bob" "bob@example.com".


Definition with_cookie : gmap string string := {[ "cookie" := "sid" ]}.


Definition pool_ended : Thrown :=
  ThrownError (new_Error "Cannot use a pool after calling end on the pool").

(** The primary refuses connections, the replica answers, and a pool
    on which [end()] was called rejects every query. *)
Definition pg_refuses_after_end : Pg :=
  {| query_outcome w pool _ :=
       if bool_decide (pool ∈ ending w) then Throw pool_ended
       else if bool_decide (pool = 0%nat) then Throw Sample.refused
       else Normal [];
     end_outcome _ _ := mkPromise 1 (Normal tt) |}.

Definition signup : SignUpBody.t :=
  SignUpBody.mk "carol@example.com" "correct horse" "Carol".

Definition login : LoginBody.t := LoginBody.mk "carol@example.com" "correct horse".

(** An auth library that runs one statement per call. *)
Definition better_auth_api : BetterAuthApi :=
  {| signUpEmail_run _ body _ :=
       LibAsk "insert user"
         (fun c =>
            match c with
            | Normal _ =>
              LibDone (Normal (Some {[ "email" := VStr (SignUpBody.email body) ]}))
            | Throw e => LibDone (Throw e)
            end);
     signInEmail_run _ body _ :=
       LibAsk "select user by email"
         (fun c =>
            match c with
            | Normal (_ :: _) =>
              LibDone (Normal (Some {[ "email" := VStr (LoginBody.email body) ]}))
            | Normal [] => LibDone (Normal None)
            | Throw e => LibDone (Throw e)
            end);
     signOut_run _ _ := LibAsk "delete session" (fun _ => LibDone (Normal None)) |}.

End Scenario.

(** * Properties *)

(** ** Tactics *)

(** Unfolds the monad's plumbing. *)
Ltac run :=
  unfold try_catch, bind, ret, throw, log, log_error, get_world, new_Date,
    await, pool_query, pool_end, alloc, drizzle in *;
  cbn [fst snd] in *.

(** ** Object identities *)

Lemma alloc_fresh (o : Obj) (w : World) :
  alloc o w = (Normal (length (heap w)), with_heap (heap w ++ [o]) w) /\
  heap w !! length (heap w) = None /\
  heap (with_heap (heap w ++ [o]) w) !! length (heap w) = Some o.
Proof.
  repeat split.
  - apply lookup_ge_None_2. lia.
  - cbn. apply list_lookup_middle. reflexivity.
Qed.

Section CreatePool.
Context `{Process}.

Lemma createPool_run (config : DatabaseConfig.t) (w : World) :
  exists pc,
    createPool config w =
      (Normal (length (heap w)), with_heap (heap w ++ [OPool pc]) w) /\
    built_config (createPool config) w = Some pc /\
    PoolConfig.host pc = DatabaseConfig.host config /\
    PoolConfig.port pc = DatabaseConfig.port config /\
    PoolConfig.ssl pc = process_ssl.
Proof.
  eexists. split; [reflexivity |].
  split; [| repeat split].
  unfold built_config, pool_config, createPool, alloc. cbn.
  rewrite list_lookup_middle by reflexivity. reflexivity.
Qed.

(** C10: a pool is built with [max = 20], [idleTimeoutMillis = 30000]
    and [connectionTimeoutMillis = 5000] for each of these the
    configuration leaves out, and with the configuration's own value,
    whatever it is, for each it supplies. *)
Theorem createPool_defaults (config : DatabaseConfig.t) (w : World) :
  exists pc,
    built_config (createPool config) w = Some pc /\
    PoolConfig.max pc =
      match DatabaseConfig.max config with
      | Some v => v
      | None => Num 20
      end /\
    PoolConfig.idleTimeoutMillis pc =
      match DatabaseConfig.idleTimeoutMillis config with
      | Some v => v
      | None => Num 30000
      end /\
    PoolConfig.connectionTimeoutMillis pc =
      match DatabaseConfig.connectionTimeoutMillis config with
      | Some v => v
      | None => Num 5000
      end.
Proof.
  eexists. split.
  - unfold built_config, pool_config, createPool, alloc. cbn.
    rewrite list_lookup_middle by reflexivity. reflexivity.
  - cbn. unfold nullish. repeat split.
Qed.

End CreatePool.

(** ** The exported functions of database.ts *)

Section Registry.
Context `{Pg, Database}.

Lemma getDatabase_run (isWrite : bool) (w : World) :
  getDatabase isWrite w = (Normal (if isWrite then dbPrimary else dbReplica), w).
Proof. reflexivity. Qed.

Lemma checkDatabaseHealth_run (w : World) :
  let q := SqlText "SELECT 1" in
  let o1 := query_outcome w primaryPool q in
  let l1 := swallowed "Primary database health check failed:" o1 in
  let w1 := with_console (console w ++ l1) (sent primaryPool q w) in
  let o2 := query_outcome w1 replicaPool q in
  let l2 := swallowed "Replica database health check failed:" o2 in
  let w2 := with_console (console w1 ++ l2) (sent replicaPool q w1) in
  checkDatabaseHealth w =
    (Normal {| Health.primary := is_normal o1; Health.replica := is_normal o2 |}, w2).
Proof.
  cbv zeta. unfold checkDatabaseHealth. run.
  destruct (query_outcome w primaryPool _) as [rows1 | e1]; cbn.
  - rewrite app_nil_r.
    change (with_console (console w) (sent primaryPool (SqlText "SELECT 1") w))
      with (sent primaryPool (SqlText "SELECT 1") w).
    destruct (query_outcome _ replicaPool _) as [rows2 | e2]; cbn.
    + rewrite app_nil_r. reflexivity.
    + reflexivity.
  - change (with_console (console w ++ [console_error "Primary database health check failed:" e1])
              (sent primaryPool (SqlText "SELECT 1") w))
      with (logged (console_error "Primary database health check failed:" e1)
              (sent primaryPool (SqlText "SELECT 1") w)).
    destruct (query_outcome _ replicaPool _) as [rows2 | e2]; cbn.
    + rewrite app_nil_r. reflexivity.
    + reflexivity.
Qed.

Lemma closeDatabaseConnections_run (w : World) :
  let w1 := logged (console_log "Closing database connections...") w in
  let p1 := end_outcome w1 primaryPool in
  let w2 := ended primaryPool w1 in
  let p2 := end_outcome w2 replicaPool in
  let w3 := ended replicaPool w2 in
  closeDatabaseConnections w =
    match settled (Promise_all [p1; p2]) with
    | Normal _ =>
      (Normal tt, logged (console_log "Database connections closed successfully") w3)
    | Throw e =>
      (Throw e, logged (console_error "Error closing database connections:" e) w3)
    end.
Proof.
  cbv zeta. unfold closeDatabaseConnections. run.
  destruct (settled (Promise_all _)); reflexivity.
Qed.

Lemma checkDatabaseHealth_keeps (w : World) :
  heap (checkDatabaseHealth w).2 = heap w /\
  ending (checkDatabaseHealth w).2 = ending w.
Proof. rewrite checkDatabaseHealth_run. split; reflexivity. Qed.

Lemma closeDatabaseConnections_keeps (w : World) :
  heap (closeDatabaseConnections w).2 = heap w /\
  ending (closeDatabaseConnections w).2 = ending w ++ [primaryPool; replicaPool].
Proof.
  rewrite closeDatabaseConnections_run. cbv zeta.
  destruct (settled (Promise_all _)); cbn; rewrite <- app_assoc; split; reflexivity.
Qed.

Lemma run_call_keeps (c : Call) (w : World) :
  heap (run_call c w) = heap w /\
  exists more, ending (run_call c w) = ending w ++ more.
Proof.
  destruct c; cbn [run_call].
  - split; [reflexivity |]. exists []. cbn. rewrite app_nil_r. reflexivity.
  - destruct (checkDatabaseHealth_keeps w) as [-> ->].
    split; [reflexivity |]. exists []. rewrite app_nil_r. reflexivity.
  - destruct (closeDatabaseConnections_keeps w) as [-> ->].
    split; [reflexivity |]. eexists. reflexivity.
Qed.

Lemma run_calls_keeps (cs : list Call) (w : World) :
  heap (run_calls cs w) = heap w /\
  exists more, ending (run_calls cs w) = ending w ++ more.
Proof.
  revert w. induction cs as [| c cs IH]; intros w; cbn.
  - split; [reflexivity |]. exists []. rewrite app_nil_r. reflexivity.
  - destruct (IH (run_call c w)) as [Hh [more Hm]].
    destruct (run_call_keeps c w) as [Hh' [more' Hm']].
    fold (run_calls cs (run_call c w)).
    split; [congruence |].
    exists (more' ++ more). rewrite Hm, Hm', app_assoc. reflexivity.
Qed.

(** C1: [getDatabase] returns [dbPrimary] for a write and [dbReplica]
    for a read, changes nothing, never throws, and gives the same
    answer at any later moment, whatever exported functions were
    called in between. *)
Theorem getDatabase_selects (isWrite : bool) (w : World) (cs : list Call) :
  getDatabase isWrite w = (Normal (if isWrite then dbPrimary else dbReplica), w) /\
  (getDatabase isWrite (run_calls cs w)).1 = (getDatabase isWrite w).1.
Proof. split; reflexivity. Qed.

(** C3: the health check always returns a report with both fields
    set and never throws.  Each flag is the outcome of that pool's own
    probe, both probes are sent, primary first, and a failing probe
    leaves only its own line on the console.  With the primary's probe
    failing and the replica's succeeding the report is
    [{primary: false, replica: true}]. *)
Theorem checkDatabaseHealth_independent (w : World) :
  let q := SqlText "SELECT 1" in
  let o1 := query_outcome w primaryPool q in
  let l1 := swallowed "Primary database health check failed:" o1 in
  let w1 := with_console (console w ++ l1) (sent primaryPool q w) in
  let o2 := query_outcome w1 replicaPool q in
  let l2 := swallowed "Replica database health check failed:" o2 in
  exists w2,
    checkDatabaseHealth w =
      (Normal {| Health.primary := is_normal o1; Health.replica := is_normal o2 |}, w2) /\
    sent_by checkDatabaseHealth w = [(primaryPool, q); (replicaPool, q)] /\
    console w2 = console w ++ l1 ++ l2.
Proof.
  cbv zeta. eexists. split; [apply checkDatabaseHealth_run |].
  unfold sent_by. rewrite checkDatabaseHealth_run. cbn.
  rewrite <- !app_assoc. split; [| reflexivity].
  apply drop_app_length.
Qed.

(** C8: the health endpoint answers 200 with [success: true] and
    status [healthy] exactly when both probe flags are true; otherwise
    it answers 503 with [success: false] and status [unhealthy].  In
    both cases the body carries the [database] object with one entry
    per pool, and the handler never throws. *)
Theorem health_GET_status (w : World) :
  exists h w1 r w2,
    checkDatabaseHealth w = (Normal h, w1) /\
    health_GET w = (Normal r, w2) /\
    HealthResponse.status r = (if Health.primary h && Health.replica h then 200 else 503)%Z /\
    HealthResponse.success r = Health.primary h && Health.replica h /\
    HealthResponse.status_text r =
      (if Health.primary h && Health.replica h then "healthy" else "unhealthy") /\
    HealthResponse.database r =
      Some (if Health.primary h then "connected" else "disconnected",
            if Health.replica h then "connected" else "disconnected") /\
    ((HealthResponse.status r = 200%Z /\ HealthResponse.success r = true) <->
     (Health.primary h = true /\ Health.replica h = true)).
Proof.
  pose proof (checkDatabaseHealth_run w) as Hrun. cbv zeta in Hrun.
  do 4 eexists. split; [exact Hrun |].
  split; [unfold health_GET; run; rewrite Hrun; reflexivity |].
  cbn. split_and!; try reflexivity.
  destruct (is_normal (query_outcome w _ _)), (is_normal (query_outcome _ replicaPool _));
    cbn; intuition congruence.
Qed.

(** C4, amended: a failure to close a pool is logged and thrown to
    the caller.  When one pool fails that pool's error is the one
    thrown; when both fail, the error of the pool whose [end()] rejects
    first is logged and thrown, and the other error appears nowhere.
    [end()] is called on both pools in every case. *)
Theorem closeDatabaseConnections_throws_first (w : World) :
  let w1 := logged (console_log "Closing database connections...") w in
  let p1 := end_outcome w1 primaryPool in
  let w2 := ended primaryPool w1 in
  let p2 := end_outcome w2 replicaPool in
  let w3 := ended replicaPool w2 in
  let failed e := (Throw e, logged (console_error "Error closing database connections:" e) w3) in
  closeDatabaseConnections w =
    match settled p1, settled p2 with
    | Normal _, Normal _ =>
      (Normal tt, logged (console_log "Database connections closed successfully") w3)
    | Throw e1, Normal _ => failed e1
    | Normal _, Throw e2 => failed e2
    | Throw e1, Throw e2 =>
      failed (if (settles_at p1 <=? settles_at p2)%nat then e1 else e2)
    end.
Proof.
  cbv zeta. rewrite closeDatabaseConnections_run. cbv zeta.
  unfold Promise_all, first_rejection.
  destruct (settled (end_outcome _ primaryPool)) as [[] | e1],
           (settled (end_outcome _ replicaPool)) as [[] | e2]; cbn;
    try reflexivity.
  destruct (_ <=? _)%nat; reflexivity.
Qed.

(** C5, amended: [closeDatabaseConnections] calls [end()] on both
    pools, and no exported function undoes that or builds a new pool:
    whatever is called afterwards, the pools ended stay ended and the
    object table is the same.  [getDatabase] does not look at any of
    this: after the shutdown it returns [dbPrimary] or [dbReplica] as
    before, without throwing. *)
Theorem getDatabase_ignores_shutdown (w : World) (cs : list Call) (isWrite : bool) :
  let closed := (closeDatabaseConnections w).2 in
  ending closed = ending w ++ [primaryPool; replicaPool] /\
  (exists more, ending (run_calls cs closed) = ending closed ++ more) /\
  heap (run_calls cs closed) = heap w /\
  getDatabase isWrite (run_calls cs closed) =
    (Normal (if isWrite then dbPrimary else dbReplica), run_calls cs closed).
Proof.
  cbv zeta.
  destruct (closeDatabaseConnections_keeps w) as [Hh He].
  destruct (run_calls_keeps cs (closeDatabaseConnections w).2) as [Hh' Hm].
  repeat split; [exact He | exact Hm | congruence].
Qed.

End Registry.

(** ** Loading the module *)

Section Load.
Context `{Process, Builtins}.

Lemma database_ts_run (w : World) :
  let n := length (heap w) in
  exists pcP pcR,
    database_ts w =
      (Normal {| primaryPool := n; replicaPool := S n;
                 dbPrimary := S (S n); dbReplica := S (S (S n)) |},
       with_heap (heap w ++ [OPool pcP; OPool pcR; ODrizzle n; ODrizzle (S n)]) w) /\
    built_config (createPool primaryConfig) w = Some pcP /\
    built_config (createPool replicaConfig) w = Some pcR.
Proof.
  cbv zeta.
  destruct (createPool_run primaryConfig w) as (pcP & HP & HbP & _).
  destruct (createPool_run replicaConfig w) as (pcR & HR & HbR & _).
  exists pcP, pcR. split; [| split; assumption].
  unfold database_ts, bind at 1. rewrite HP.
  unfold createPool, drizzle, alloc, bind, ret in *. cbn in *.
  injection HP as HP. injection HR as HR.
  apply app_inj_tail in HP as [_ HP]. apply app_inj_tail in HR as [_ HR].
  injection HP as <-. injection HR as <-.
  rewrite !length_app. cbn.
  replace (length (heap w) + 1) with (S (length (heap w))) by lia.
  replace (S (length (heap w)) + 1) with (S (S (length (heap w)))) by lia.
  replace (S (S (length (heap w))) + 1) with (S (S (S (length (heap w))))) by lia.
  rewrite <- !app_assoc. reflexivity.
Qed.

Lemma lookup_past {A} (l : list A) (k : nat) (more : list A) (x : A) :
  more !! k = Some x -> (l ++ more) !! (length l + k) = Some x.
Proof. intros Hk. rewrite lookup_app_r by lia. rewrite <- Hk. f_equal. lia. Qed.

Lemma database_ts_loaded (w : World) :
  exists (d : Database) (w' : World),
    database_ts w = (Normal d, w') /\ @loaded d w'.
Proof.
  destruct (database_ts_run w) as (pcP & pcR & Hrun & _).
  do 2 eexists. split; [exact Hrun |].
  unfold loaded. cbn. split_and!.
  - replace (S (S (length (heap w)))) with (length (heap w) + 2) by lia.
    apply lookup_past. reflexivity.
  - replace (S (S (S (length (heap w))))) with (length (heap w) + 3) by lia.
    apply lookup_past. reflexivity.
  - lia.
Qed.

(** C6: loading the module builds two pool objects and two database
    objects over them; the two pools have different identities and so
    have what [getDatabase(true)] and [getDatabase(false)] return, for
    every process environment, in particular when both configurations
    name the same host and port.  No exported function changes the
    object table afterwards. *)
Theorem pools_distinct (w : World) :
  exists (d : Database) (w' : World) (pcP pcR : PoolConfig.t),
    database_ts w = (Normal d, w') /\
    @primaryPool d <> @replicaPool d /\
    @dbPrimary d <> @dbReplica d /\
    heap w' !! @primaryPool d = Some (OPool pcP) /\
    heap w' !! @replicaPool d = Some (OPool pcR) /\
    PoolConfig.host pcP = DatabaseConfig.host primaryConfig /\
    PoolConfig.port pcP = DatabaseConfig.port primaryConfig /\
    PoolConfig.host pcR = DatabaseConfig.host replicaConfig /\
    PoolConfig.port pcR = DatabaseConfig.port replicaConfig /\
    heap w' !! @dbPrimary d = Some (ODrizzle (@primaryPool d)) /\
    heap w' !! @dbReplica d = Some (ODrizzle (@replicaPool d)) /\
    forall (pg : Pg) (cs : list Call) (w1 w2 : World),
      (@getDatabase d true w1).1 <> (@getDatabase d false w2).1 /\
      heap (@run_calls pg d cs w') = heap w'.
Proof.
  destruct (database_ts_run w) as (pcP & pcR & Hrun & HbP & HbR).
  destruct (createPool_run primaryConfig w) as (pcP' & _ & HbP' & HhP & HpP & _).
  destruct (createPool_run replicaConfig w) as (pcR' & _ & HbR' & HhR & HpR & _).
  assert (pcP' = pcP) as -> by congruence.
  assert (pcR' = pcR) as -> by congruence.
  eexists _, _, pcP, pcR. split; [exact Hrun |].
  cbn. split_and!; try assumption; try lia.
  - replace (length (heap w)) with (length (heap w) + 0) at 1 by lia.
    apply lookup_past. reflexivity.
  - replace (S (length (heap w))) with (length (heap w) + 1) by lia.
    apply lookup_past. reflexivity.
  - replace (S (S (length (heap w)))) with (length (heap w) + 2) by lia.
    apply lookup_past. reflexivity.
  - replace (S (S (S (length (heap w))))) with (length (heap w) + 3) by lia.
    apply lookup_past. reflexivity.
  - intros pg cs w1 w2. split.
    + cbn. intros [=]. lia.
    + apply (@run_calls_keeps pg).
Qed.

(** C7, amended: the TLS setting of a pool is taken from the process
    environment, not from the configuration record the pool is built
    from (which has no TLS field): the pool is built with
    [ssl: { rejectUnauthorized: false }] when [DB_SSL_ENABLED] is
    exactly ["true"] and with [ssl: false] otherwise.  Both pools of
    the module therefore always have the same TLS setting. *)
Theorem createPool_ssl_from_process (config : DatabaseConfig.t) (w : World) :
  (exists pc,
     built_config (createPool config) w = Some pc /\
     PoolConfig.ssl pc =
       if bool_decide (process_env !! "DB_SSL_ENABLED" = Some "true")
       then SslOptions false
       else SslFalse) /\
  (exists (d : Database) (w' : World) (pcP pcR : PoolConfig.t),
     database_ts w = (Normal d, w') /\
     pool_config w' (@primaryPool d) = Some pcP /\
     pool_config w' (@replicaPool d) = Some pcR /\
     PoolConfig.ssl pcP = PoolConfig.ssl pcR).
Proof.
  split.
  - destruct (createPool_run config w) as (pc & _ & Hb & _ & _ & Hssl).
    exists pc. split; assumption.
  - destruct (database_ts_run w) as (pcP & pcR & Hrun & HbP & HbR).
    destruct (createPool_run primaryConfig w) as (pcP' & _ & HbP' & _ & _ & HsP).
    destruct (createPool_run replicaConfig w) as (pcR' & _ & HbR' & _ & _ & HsR).
    assert (pcP' = pcP) as -> by congruence.
    assert (pcR' = pcR) as -> by congruence.
    eexists _, _, pcP, pcR. split; [exact Hrun |].
    unfold pool_config. cbn. split_and!.
    + replace (length (heap w)) with (length (heap w) + 0) at 1 by lia.
      rewrite (lookup_past (heap w) 0 _ (OPool pcP)) by reflexivity. reflexivity.
    + replace (S (length (heap w))) with (length (heap w) + 1) by lia.
      rewrite (lookup_past (heap w) 1 _ (OPool pcR)) by reflexivity. reflexivity.
    + congruence.
Qed.

End Load.

(** ** Sessions *)

Section Sessions.
Context `{Pg, Database, BetterAuth}.

Lemma verifySession_run (headers : gmap string string) (w : World) :
  verifySession headers w =
    match auth_api_getSession headers w with
    | (Normal s, w') => (Normal s, w')
    | (Throw e, w') =>
      (Normal None, logged (console_error "Session verification error:" e) w')
    end.
Proof.
  unfold verifySession, try_catch, bind.
  destruct (auth_api_getSession headers w) as [[[s |] | e] w']; reflexivity.
Qed.

Lemma getUserFromSession_run (headers : gmap string string) (w : World) :
  getUserFromSession headers w =
    match auth_api_getSession headers w with
    | (Normal s, w') => (Normal (s ≫= Session.user), w')
    | (Throw e, w') =>
      (Normal None, logged (console_error "Session verification error:" e) w')
    end.
Proof.
  unfold getUserFromSession, bind. rewrite verifySession_run.
  destruct (auth_api_getSession headers w) as [[[s |] | e] w']; reflexivity.
Qed.


End Sessions.

(** ** Which pool a sequence of statements goes to *)

Section Pinning.
Context `{Pg, Database}.

Lemma pinned_quiet {A} (m : M A) :
  (forall w, heap (m w).2 = heap w /\ issued (m w).2 = issued w) -> pinned m.
Proof.
  intros Hm w Hw. destruct (Hm w) as [Hh Hi]. split.
  - unfold loaded in *. rewrite Hh. exact Hw.
  - exists []. rewrite app_nil_r. split; [exact Hi | constructor].
Qed.

Lemma pinned_ret {A} (a : A) : pinned (ret a).
Proof. apply pinned_quiet. intros w. split; reflexivity. Qed.

Lemma pinned_throw {A} (e : Thrown) : pinned (@throw A e).
Proof. apply pinned_quiet. intros w. split; reflexivity. Qed.

Lemma pinned_log_error (text : string) (e : Thrown) : pinned (log_error text e).
Proof. apply pinned_quiet. intros w. split; reflexivity. Qed.

Lemma pinned_new_Date : pinned new_Date.
Proof. apply pinned_quiet. intros w. split; reflexivity. Qed.

Lemma pinned_bind {A B} (m : M A) (k : A -> M B) :
  pinned m -> (forall a, pinned (k a)) -> pinned (bind m k).
Proof.
  intros Hm Hk w Hw. unfold bind.
  specialize (Hm w Hw). destruct (m w) as [[a | e] w1]; cbn in Hm.
  - destruct Hm as [Hw1 (l1 & Hi1 & Hl1)].
    destruct (Hk a w1 Hw1) as [Hw2 (l2 & Hi2 & Hl2)].
    split; [exact Hw2 |]. exists (l1 ++ l2).
    rewrite Hi2, Hi1, app_assoc. split; [reflexivity |].
    apply Forall_app. split; assumption.
  - exact Hm.
Qed.

Lemma pinned_try_catch {A} (body : M A) (handler : Thrown -> M A) :
  pinned body -> (forall e, pinned (handler e)) -> pinned (try_catch body handler).
Proof.
  intros Hm Hk w Hw. unfold try_catch.
  specialize (Hm w Hw). destruct (body w) as [[a | e] w1]; cbn in Hm.
  - exact Hm.
  - destruct Hm as [Hw1 (l1 & Hi1 & Hl1)].
    destruct (Hk e w1 Hw1) as [Hw2 (l2 & Hi2 & Hl2)].
    split; [exact Hw2 |]. exists (l1 ++ l2).
    rewrite Hi2, Hi1, app_assoc. split; [reflexivity |].
    apply Forall_app. split; assumption.
Qed.

Lemma execute_run (db : loc) (s : Stmt) (w : World) :
  execute db s w =
    match heap w !! db with
    | Some (ODrizzle pool) => (query_outcome w pool s, sent pool s w)
    | _ => (Throw (ThrownError (mkError Error_ "TypeError" "not a database object")), w)
    end.
Proof.
  unfold execute. run. destruct (heap w !! db) as [[cfg | pool] |]; reflexivity.
Qed.

Lemma pinned_execute (s : Stmt) : pinned (execute dbPrimary s).
Proof.
  intros w Hw. rewrite execute_run.
  destruct Hw as (HP & HR & Hne). rewrite HP. cbn. split.
  - split_and!; assumption.
  - exists [(primaryPool, s)]. split; [reflexivity |].
    constructor; [| constructor]. split; [reflexivity | exact Hne].
Qed.

Lemma pinned_run_adapter {A} (r : LibRun A) : pinned (run_adapter dbPrimary r).
Proof.
  induction r as [c | text k IH].
  - apply pinned_quiet. intros w. split; reflexivity.
  - intros w Hw. cbn [run_adapter].
    pose proof (pinned_execute (AdapterStmt text) w Hw) as Hx.
    destruct (execute dbPrimary (AdapterStmt text) w) as [c w1]. cbn in Hx.
    destruct Hx as [Hw1 (l1 & Hi1 & Hl1)].
    destruct (IH c w1 Hw1) as [Hw2 (l2 & Hi2 & Hl2)].
    split; [exact Hw2 |]. exists (l1 ++ l2).
    rewrite Hi2, Hi1, app_assoc. split; [reflexivity |].
    apply Forall_app. split; assumption.
Qed.

Lemma pinned_sent_by {A} (m : M A) (w : World) :
  pinned m -> loaded w -> Forall on_primary (sent_by m w).
Proof.
  intros Hm Hw. destruct (Hm w Hw) as [_ (l & Hi & Hl)].
  unfold sent_by. rewrite Hi, drop_app_length. exact Hl.
Qed.

Create HintDb pinned.
#[local] Hint Resolve pinned_ret pinned_throw pinned_log_error pinned_new_Date
  pinned_execute pinned_run_adapter : pinned.

(** Steps through a handler body. *)
Ltac pinned_step :=
  first
    [ solve [auto with pinned]
    | apply pinned_try_catch; [| intros ?]
    | apply pinned_bind; [| intros ?] ].

Lemma pinned_posts_PATCH_id (id : string) (body : PostBody.t) (user : User.t) :
  pinned (posts_PATCH_id id body user).
Proof.
  unfold posts_PATCH_id. repeat pinned_step.
  destruct (head _); [| auto with pinned].
  destruct (negb _); [auto with pinned |].
  repeat pinned_step.
Qed.

Lemma pinned_posts_DELETE_id (id : string) (user : User.t) :
  pinned (posts_DELETE_id id user).
Proof.
  unfold posts_DELETE_id. repeat pinned_step.
  destruct (head _); [| auto with pinned].
  destruct (negb _); [auto with pinned |].
  repeat pinned_step.
Qed.

Lemma pinned_posts_POST (body : NewPostBody.t) (user : User.t) :
  pinned (posts_POST body user).
Proof. unfold posts_POST. repeat pinned_step. Qed.

(** A handler with a single [await] on a database object sends at most
    one statement. *)
Lemma single_statement {B} (db : loc) (s : Stmt) (k : list Row -> M B)
    (handler : Thrown -> M B) (w : World) :
  (forall rows w', issued (k rows w').2 = issued w') ->
  (forall e w', issued (handler e w').2 = issued w') ->
  length (sent_by (try_catch (bind (execute db s) k) handler) w) <= 1.
Proof.
  intros Hk Hh. unfold sent_by, try_catch, bind. rewrite execute_run.
  destruct (heap w !! db) as [[cfg | pool] |]; cbn.
  - rewrite Hh. rewrite drop_all. cbn. lia.
  - destruct (query_outcome w pool s) as [rows | e]; cbn.
    + destruct (k rows (sent pool s w)) as [[b | e] w'] eqn:Ek.
      * specialize (Hk rows (sent pool s w)). rewrite Ek in Hk. cbn in *.
        rewrite Hk, drop_app_length. cbn. lia.
      * specialize (Hk rows (sent pool s w)). rewrite Ek in Hk. cbn in Hk.
        rewrite Hh, Hk. cbn. rewrite drop_app_length. cbn. lia.
    + rewrite Hh. cbn. rewrite drop_app_length. cbn. lia.
  - rewrite Hh. rewrite drop_all. cbn. lia.
Qed.

End Pinning.

Section Requests.
Context `{Pg, Database, BetterAuth}.

Lemma pinned_auth_api_getSession (headers : gmap string string) :
  pinned (auth_api_getSession headers).
Proof.
  unfold auth_api_getSession, auth_database. apply pinned_bind.
  - apply pinned_quiet. intros w. split; reflexivity.
  - intros w. apply pinned_run_adapter.
Qed.

(** C2: with the module loaded, every statement of PATCH /posts/:id
    and of DELETE /posts/:id, the read of [authorId] included, and
    every statement the auth library runs through its adapter goes to
    the primary pool and none to the replica.  More generally a post
    handler that sends more than one statement sends them all to the
    primary pool. *)
Theorem multi_statement_on_primary (w : World) :
  loaded w ->
  (forall id body user,
      Forall on_primary (sent_by (posts_PATCH_id id body user) w)) /\
  (forall id user,
      Forall on_primary (sent_by (posts_DELETE_id id user) w)) /\
  (forall headers,
      Forall on_primary (sent_by (auth_api_getSession headers) w)) /\
  (forall (A : Type) (r : LibRun A),
      Forall on_primary (sent_by (run_adapter auth_database r) w)) /\
  (forall r user,
      length (sent_by (posts_handler r user) w) <= 1 \/
      Forall on_primary (sent_by (posts_handler r user) w)).
Proof.
  intros Hw. split_and!.
  - intros. apply pinned_sent_by; [apply pinned_posts_PATCH_id | exact Hw].
  - intros. apply pinned_sent_by; [apply pinned_posts_DELETE_id | exact Hw].
  - intros. apply pinned_sent_by; [apply pinned_auth_api_getSession | exact Hw].
  - intros. apply pinned_sent_by; [apply pinned_run_adapter | exact Hw].
  - intros [query | id | body | id body | id] user; cbn [posts_handler].
    + left. apply single_statement.
      * intros rows w'. reflexivity.
      * intros e w'. reflexivity.
    + left. apply single_statement.
      * intros rows w'. destruct (head rows); reflexivity.
      * intros e w'. reflexivity.
    + right. apply pinned_sent_by; [apply pinned_posts_POST | exact Hw].
    + right. apply pinned_sent_by; [apply pinned_posts_PATCH_id | exact Hw].
    + right. apply pinned_sent_by; [apply pinned_posts_DELETE_id | exact Hw].
Qed.

End Requests.

(** ** Concrete runs *)

Module Runs.
Import Sample.

Lemma live_world_loaded : @loaded database live_world.
Proof. split_and!; [reflexivity | reflexivity | discriminate]. Defined.

Lemma multi_statement_on_primary_witness :
  @loaded database live_world /\
  Forall (@on_primary database)
    (sent_by (@posts_PATCH_id pg_up database "p1" retitle alice) live_world).
Proof.
  split; [exact live_world_loaded |].
  apply (@multi_statement_on_primary pg_up database better_auth live_world
           live_world_loaded).
Defined.

(** The PATCH handler does send two statements: the read, then the write. *)
Example posts_PATCH_id_two_statements :
  fst <$> sent_by (@posts_PATCH_id pg_up database "p1" retitle alice) live_world
  = [0; 0].
Proof. vm_compute. reflexivity. Qed.

(** A read goes to the replica pool. *)
Example posts_GET_id_on_replica :
  sent_by (@posts_GET_id pg_up database "p1") live_world = [(1, SelectPostById "p1")].
Proof. vm_compute. reflexivity. Qed.

(** The specification's scenario: primary down, replica up. *)
Example checkDatabaseHealth_primary_down :
  (@checkDatabaseHealth pg_primary_down database live_world).1 =
    Normal {| Health.primary := false; Health.replica := true |}.
Proof. vm_compute. reflexivity. Qed.

(** The session lookup throws: the middleware's error meets no hook. *)
Example postRoutes_session_lookup_throws :
  (@postRoutes pg_up database better_auth_broken {[ "cookie" := "sid" ]}
     (GET_posts_id "p1") live_world).1 =
    Normal (Unhandled (ThrownError (new_UnauthorizedError (Some "Authentication required")))).
Proof. vm_compute. reflexivity. Qed.

(** Same host and port for both pools, yet two pool objects. *)
Example same_endpoint_two_pools :
  @primaryConfig same_endpoint builtins = @replicaConfig same_endpoint builtins /\
  (@database_ts same_endpoint builtins empty_world).1 = Normal database.
Proof. split; vm_compute; reflexivity. Qed.

(** Both [end()] calls reject; only the first rejection is thrown and
    logged, the replica's error is reported nowhere. *)
Lemma closeDatabaseConnections_drops_second_error :
  let run := @closeDatabaseConnections pg_end_fails database live_world in
  let w1 := logged (console_log "Closing database connections...") live_world in
  let w2 := ended 0 w1 in
  @end_outcome pg_end_fails w1 0 = mkPromise 1 (Throw refused) /\
  @end_outcome pg_end_fails w2 1 = mkPromise 2 (Throw timed_out) /\
  reported refused run /\
  ~ reported timed_out run.
Proof.
  cbv zeta. split_and!; [reflexivity | reflexivity | left; reflexivity |].
  intros [Hthrown | [text Hlogged]].
  - vm_compute in Hthrown. discriminate.
  - vm_compute in Hlogged.
    apply elem_of_cons in Hlogged as [Heq | Hlogged]; [discriminate |].
    apply elem_of_cons in Hlogged as [Heq | Hlogged]; [discriminate |].
    apply elem_of_nil in Hlogged. exact Hlogged.
Qed.

(** After a clean shutdown [getDatabase] still hands out the database
    objects. *)
Lemma getDatabase_after_shutdown :
  let run := @closeDatabaseConnections pg_up database live_world in
  run.1 = Normal tt /\
  ending run.2 = [0; 1] /\
  (@getDatabase database true run.2).1 = Normal 2 /\
  (@getDatabase database false run.2).1 = Normal 3 /\
  ~ rejected (@getDatabase database true run.2).1 /\
  ~ rejected (@getDatabase database false run.2).1.
Proof.
  cbv zeta. split_and!; try reflexivity; intros [e He]; discriminate.
Qed.

(** One configuration record, two process environments, two TLS
    settings. *)
Lemma createPool_ssl_not_from_config :
  PoolConfig.ssl <$> built_config (@createPool bare config) empty_world
    = Some SslFalse /\
  PoolConfig.ssl <$> built_config (@createPool tls config) empty_world
    = Some (SslOptions false) /\
  ~ ssl_from_config.
Proof.
  assert (Hbare : PoolConfig.ssl <$> built_config (@createPool bare config) empty_world
                  = Some SslFalse) by (vm_compute; reflexivity).
  assert (Htls : PoolConfig.ssl <$> built_config (@createPool tls config) empty_world
                 = Some (SslOptions false)) by (vm_compute; reflexivity).
  split_and!; [exact Hbare | exact Htls |].
  intros [tls_of Hall].
  rewrite (Hall bare config empty_world) in Hbare.
  rewrite (Hall tls config empty_world) in Htls.
  congruence.
Qed.

End Runs.

(** * Further properties *)

Section PostHandlers.
Context `{Pg, Database}.

Lemma sent_by_app {A} (m : M A) (w : World) (l : list (loc * Stmt)) :
  issued (m w).2 = issued w ++ l -> sent_by m w = l.
Proof. intros Hi. unfold sent_by. rewrite Hi. apply drop_app_length. Qed.

Lemma execute_ok (db pool : loc) (s : Stmt) (w : World) :
  heap w !! db = Some (ODrizzle pool) ->
  execute db s w = (query_outcome w pool s, sent pool s w).
Proof. intros Hh. rewrite execute_run, Hh. reflexivity. Qed.

Lemma execute_refused (db : loc) (s : Stmt) (w : World) :
  (forall pool, heap w !! db <> Some (ODrizzle pool)) ->
  execute db s w =
    (Throw (ThrownError (mkError Error_ "TypeError" "not a database object")), w).
Proof.
  intros Hh. rewrite execute_run.
  destruct (heap w !! db) as [[cfg | pool] |]; try reflexivity.
  destruct (Hh pool). reflexivity.
Qed.

Ltac issued_eq :=
  cbn;
  first [ reflexivity
        | rewrite <- app_assoc; reflexivity
        | symmetry; apply app_nil_r ].

Lemma posts_PATCH_id_run (id : string) (body : PostBody.t) (user : User.t) (w : World) :
  exists r l w',
    posts_PATCH_id id body user w = (Normal r, w') /\
    issued w' = issued w ++ l /\
    ((author_confirmed id user w = false /\
      Forall (fun x => x.2 = SelectPostAuthorId id) l /\
      Response.success r = false /\
      (Response.status r = 404 \/ Response.status r = 403 \/ Response.status r = 400)%Z) \/
     (author_confirmed id user w = true /\
      exists pool,
        heap w !! dbPrimary = Some (ODrizzle pool) /\
        l = [(pool, SelectPostAuthorId id);
             (pool, UpdatePost id
                      (<["updatedAt" := VDate (clock w)]>
                         (spread_defined_bool "published" (PostBody.published body)
                            (spread_string "content" (PostBody.content body)
                               (spread_string "title" (PostBody.title body) ∅)))))] /\
        (Response.success r = true /\ Response.status r = 200%Z \/
         Response.success r = false /\ Response.status r = 400%Z))).
Proof.
  unfold author_confirmed, posts_PATCH_id, try_catch, bind.
  rewrite execute_run.
  destruct (heap w !! dbPrimary) as [[cfg | pool] |] eqn:Hh; cbn -[spread_string spread_defined_bool execute].
  - eexists _, [], _. split; [reflexivity |]. split; [issued_eq |].
    left. split_and!; [reflexivity | constructor | reflexivity | auto].
  - destruct (query_outcome w pool (SelectPostAuthorId id)) as [[| row rest] | e];
      cbn -[spread_string spread_defined_bool execute].
    + eexists _, _, _. split; [reflexivity |]. split; [issued_eq |].
      left. split_and!; [reflexivity | repeat constructor | reflexivity | auto].
    + destruct (strict_eq (prop row "authorId") (VStr (User.id user)));
        cbn -[spread_string spread_defined_bool execute].
      * rewrite (execute_ok dbPrimary pool _ (sent pool (SelectPostAuthorId id) w) Hh).
        unfold new_Date, ret.
        destruct (query_outcome _ pool (UpdatePost _ _)) as [updated | e];
          cbn -[spread_string spread_defined_bool execute].
        -- eexists _, _, _. split; [reflexivity |]. split; [issued_eq |].
           right. split; [reflexivity |]. exists pool.
           split_and!; [reflexivity | reflexivity | left; split; reflexivity].
        -- eexists _, _, _. split; [reflexivity |]. split; [issued_eq |].
           right. split; [reflexivity |]. exists pool.
           split_and!; [reflexivity | reflexivity | right; split; reflexivity].
      * eexists _, _, _. split; [reflexivity |]. split; [issued_eq |].
        left. split_and!; [reflexivity | repeat constructor | reflexivity | auto].
    + eexists _, _, _. split; [reflexivity |]. split; [issued_eq |].
      left. split_and!; [reflexivity | repeat constructor | reflexivity | auto].
  - eexists _, [], _. split; [reflexivity |]. split; [issued_eq |].
    left. split_and!; [reflexivity | constructor | reflexivity | auto].
Qed.


Lemma posts_DELETE_id_run (id : string) (user : User.t) (w : World) :
  exists r l w',
    posts_DELETE_id id user w = (Normal r, w') /\
    issued w' = issued w ++ l /\
    ((author_confirmed id user w = false /\
      Forall (fun x => x.2 = SelectPostAuthorId id) l /\
      Response.success r = false /\
      (Response.status r = 404 \/ Response.status r = 403 \/ Response.status r = 400)%Z) \/
     (author_confirmed id user w = true /\
      exists pool,
        heap w !! dbPrimary = Some (ODrizzle pool) /\
        l = [(pool, SelectPostAuthorId id); (pool, DeletePost id)] /\
        (Response.success r = true /\ Response.status r = 200%Z \/
         Response.success r = false /\ Response.status r = 400%Z))).
Proof.
  unfold author_confirmed, posts_DELETE_id, try_catch, bind.
  rewrite execute_run.
  destruct (heap w !! dbPrimary) as [[cfg | pool] |] eqn:Hh; cbn -[execute].
  - eexists _, [], _. split; [reflexivity |]. split; [issued_eq |].
    left. split_and!; [reflexivity | constructor | reflexivity | auto].
  - destruct (query_outcome w pool (SelectPostAuthorId id)) as [[| row rest] | e];
      cbn -[execute].
    + eexists _, _, _. split; [reflexivity |]. split; [issued_eq |].
      left. split_and!; [reflexivity | repeat constructor | reflexivity | auto].
    + destruct (strict_eq (prop row "authorId") (VStr (User.id user))); cbn -[execute].
      * rewrite (execute_ok dbPrimary pool _ (sent pool (SelectPostAuthorId id) w) Hh).
        destruct (query_outcome _ pool (DeletePost _)) as [deleted | e]; cbn -[execute].
        -- eexists _, _, _. split; [reflexivity |]. split; [issued_eq |].
           right. split; [reflexivity |]. exists pool.
           split_and!; [reflexivity | reflexivity | left; split; reflexivity].
        -- eexists _, _, _. split; [reflexivity |]. split; [issued_eq |].
           right. split; [reflexivity |]. exists pool.
           split_and!; [reflexivity | reflexivity | right; split; reflexivity].
      * eexists _, _, _. split; [reflexivity |]. split; [issued_eq |].
        left. split_and!; [reflexivity | repeat constructor | reflexivity | auto].
    + eexists _, _, _. split; [reflexivity |]. split; [issued_eq |].
      left. split_and!; [reflexivity | repeat constructor | reflexivity | auto].
  - eexists _, [], _. split; [reflexivity |]. split; [issued_eq |].
    left. split_and!; [reflexivity | constructor | reflexivity | auto].
Qed.

Lemma Forall_weaken {A} (P Q : A -> Prop) (l : list A) :
  Forall P l -> (forall x, P x -> Q x) -> Forall Q l.
Proof. rewrite !Forall_forall. intros HP HPQ x Hx. apply HPQ, HP, Hx. Qed.

Lemma not_write_read (id : string) (l : list (loc * Stmt)) :
  Forall (fun x => x.2 = SelectPostAuthorId id) l ->
  ~ Exists (fun x => is_write x.2 = true) l.
Proof.
  intros Hall Hex. apply Exists_exists in Hex as (x & Hx & Hw).
  rewrite Forall_forall in Hall. rewrite (Hall x Hx) in Hw. discriminate.
Qed.

(** X1: PATCH /posts/:id sends an UPDATE exactly when its ownership
    read returned a row whose [authorId] is the session user's id; the
    only statements it ever sends are that read and an update of the
    requested post.  In every other case (no such post, another author,
    a failed read) it writes nothing and answers 404, 403 or 400 with
    [success: false].  The handler never throws. *)
Theorem posts_PATCH_id_writes_iff_author (id : string) (body : PostBody.t)
    (user : User.t) (w : World) :
  exists r w',
    posts_PATCH_id id body user w = (Normal r, w') /\
    (Exists (fun x => is_write x.2 = true) (sent_by (posts_PATCH_id id body user) w)
     <-> author_confirmed id user w = true) /\
    Forall (fun x => x.2 = SelectPostAuthorId id \/
                     exists changes, x.2 = UpdatePost id changes)
      (sent_by (posts_PATCH_id id body user) w) /\
    (author_confirmed id user w = true \/
     Response.success r = false /\
     (Response.status r = 404 \/ Response.status r = 403 \/ Response.status r = 400)%Z).
Proof.
  destruct (posts_PATCH_id_run id body user w) as (r & l & w' & Hrun & Hi & Hcase).
  exists r, w'. split; [exact Hrun |].
  rewrite (sent_by_app _ w l) by (rewrite Hrun; exact Hi).
  destruct Hcase as [(Hno & Hl & Hs & Hst) | (Hyes & pool & _ & -> & _)].
  - split_and!.
    + split; [| congruence]. intros Hex. destruct (not_write_read id l Hl Hex).
    + apply (Forall_weaken _ _ _ Hl). intros x Hx. left. exact Hx.
    + right. split; assumption.
  - split_and!.
    + split; [intros _; exact Hyes |]. intros _.
      apply Exists_cons_tl, Exists_cons_hd. reflexivity.
    + constructor; [left; reflexivity |].
      constructor; [right; eexists; reflexivity | constructor].
    + left. exact Hyes.
Qed.

(** X2: DELETE /posts/:id sends a DELETE exactly when its ownership
    read returned a row whose [authorId] is the session user's id, and
    then only for the requested post; otherwise it deletes nothing and
    answers 404, 403 or 400 with [success: false]. *)
Theorem posts_DELETE_id_writes_iff_author (id : string) (user : User.t) (w : World) :
  exists r w',
    posts_DELETE_id id user w = (Normal r, w') /\
    (Exists (fun x => is_write x.2 = true) (sent_by (posts_DELETE_id id user) w)
     <-> author_confirmed id user w = true) /\
    Forall (fun x => x.2 = SelectPostAuthorId id \/ x.2 = DeletePost id)
      (sent_by (posts_DELETE_id id user) w) /\
    (author_confirmed id user w = true \/
     Response.success r = false /\
     (Response.status r = 404 \/ Response.status r = 403 \/ Response.status r = 400)%Z).
Proof.
  destruct (posts_DELETE_id_run id user w) as (r & l & w' & Hrun & Hi & Hcase).
  exists r, w'. split; [exact Hrun |].
  rewrite (sent_by_app _ w l) by (rewrite Hrun; exact Hi).
  destruct Hcase as [(Hno & Hl & Hs & Hst) | (Hyes & pool & _ & -> & _)].
  - split_and!.
    + split; [| congruence]. intros Hex. destruct (not_write_read id l Hl Hex).
    + apply (Forall_weaken _ _ _ Hl). intros x Hx. left. exact Hx.
    + right. split; assumption.
  - split_and!.
    + split; [intros _; exact Hyes |]. intros _.
      apply Exists_cons_tl, Exists_cons_hd. reflexivity.
    + constructor; [left; reflexivity |].
      constructor; [right; reflexivity | constructor].
    + left. exact Hyes.
Qed.

Lemma spread_string_lookup (key : string) (x : option string) (o : Row) (k : string) :
  spread_string key x o !! k =
    match x with
    | Some s => if truthy_string s && bool_decide (key = k) then Some (VStr s) else o !! k
    | None => o !! k
    end.
Proof.
  unfold spread_string. destruct x as [s |]; [| reflexivity].
  destruct (truthy_string s); cbn; [| reflexivity].
  case_bool_decide as Hk.
  - subst. apply lookup_insert_eq.
  - apply lookup_insert_ne. exact Hk.
Qed.

Lemma spread_defined_bool_lookup (key : string) (x : option bool) (o : Row) (k : string) :
  spread_defined_bool key x o !! k =
    match x with
    | Some b => if bool_decide (key = k) then Some (VBool b) else o !! k
    | None => o !! k
    end.
Proof.
  unfold spread_defined_bool. destruct x as [b |]; [| reflexivity].
  case_bool_decide as Hk.
  - subst. apply lookup_insert_eq.
  - apply lookup_insert_ne. exact Hk.
Qed.

(** X3: the update PATCH /posts/:id sends targets the requested id and
    sets [updatedAt] always, [title] and [content] only when given and
    non-empty (an empty string is ignored), [published] whenever given,
    [false] included, and no other column: the author, the id and the
    creation date cannot be changed. *)
Theorem posts_PATCH_id_changes (id : string) (body : PostBody.t) (user : User.t)
    (w : World) :
  Forall
    (fun x =>
       forall id' changes, x.2 = UpdatePost id' changes ->
         id' = id /\
         changes !! "updatedAt" = Some (VDate (clock w)) /\
         changes !! "title" = written_string (PostBody.title body) /\
         changes !! "content" = written_string (PostBody.content body) /\
         changes !! "published" = VBool <$> PostBody.published body /\
         forall k, k <> "updatedAt" -> k <> "title" -> k <> "content" ->
                   k <> "published" -> changes !! k = None)
    (sent_by (posts_PATCH_id id body user) w).
Proof.
  destruct (posts_PATCH_id_run id body user w) as (r & l & w' & Hrun & Hi & Hcase).
  rewrite (sent_by_app _ w l) by (rewrite Hrun; exact Hi).
  destruct Hcase as [(_ & Hl & _) | (_ & pool & _ & -> & _)].
  - apply (Forall_weaken _ _ _ Hl). intros x Hx id' changes Hu. congruence.
  - constructor; [intros id' changes [=] |].
    constructor; [| constructor].
    intros id' changes [= <- <-]. split; [reflexivity |].
    split; [apply lookup_insert_eq |].
    destruct body as [title content published]. cbn [PostBody.title PostBody.content PostBody.published].
    split_and!.
    + rewrite lookup_insert_ne by done.
      rewrite spread_defined_bool_lookup, !spread_string_lookup.
      destruct published, content as [c |], title as [t |]; cbn;
        repeat (case_bool_decide; try done);
        try destruct (truthy_string c); try destruct (truthy_string t); cbn; done.
    + rewrite lookup_insert_ne by done.
      rewrite spread_defined_bool_lookup, !spread_string_lookup.
      destruct published, content as [c |], title as [t |]; cbn;
        repeat (case_bool_decide; try done);
        try destruct (truthy_string c); try destruct (truthy_string t); cbn; done.
    + rewrite lookup_insert_ne by done.
      rewrite spread_defined_bool_lookup, !spread_string_lookup.
      destruct published, content as [c |], title as [t |]; cbn;
        repeat (case_bool_decide; try done);
        try destruct (truthy_string c); try destruct (truthy_string t); cbn; done.
    + intros k H1 H2 H3 H4. rewrite lookup_insert_ne by done.
      rewrite spread_defined_bool_lookup, !spread_string_lookup.
      destruct published, content as [c |], title as [t |]; cbn;
        repeat (case_bool_decide; try done);
        try destruct (truthy_string c); try destruct (truthy_string t); cbn; done.
Qed.


Lemma posts_GET_run (query : PostsQuery.t) (w : World) :
  let limit := or_opt_number (PostsQuery.limit query) (Num 10) in
  let offset := or_opt_number (PostsQuery.offset query) (Num 0) in
  exists r l w',
    posts_GET query w = (Normal r, w') /\
    issued w' = issued w ++ l /\
    heap w' = heap w /\
    (l = [] \/ exists pool, heap w !! dbReplica = Some (ODrizzle pool) /\
                l = [(pool, SelectPosts (PostsQuery.published query) limit offset)]) /\
    Response.status r = 200%Z /\
    (Response.success r = true /\ Response.pagination r = Some (limit, offset) \/
     Response.success r = false /\ Response.pagination r = None).
Proof.
  cbv zeta. unfold posts_GET, try_catch, bind. rewrite execute_run.
  destruct (heap w !! dbReplica) as [[cfg | pool] |] eqn:Hh; cbn -[execute].
  - eexists _, [], _. split; [reflexivity |]. split; [issued_eq |].
    split_and!; [reflexivity | left; reflexivity | reflexivity | right; split; reflexivity].
  - destruct (query_outcome w pool _) as [rows | e]; cbn -[execute].
    + eexists _, _, _. split; [reflexivity |]. split; [issued_eq |].
      split_and!; [reflexivity | right; exists pool; split; reflexivity | reflexivity
                  | left; split; reflexivity].
    + eexists _, _, _. split; [reflexivity |]. split; [issued_eq |].
      split_and!; [reflexivity | right; exists pool; split; reflexivity | reflexivity
                  | right; split; reflexivity].
  - eexists _, [], _. split; [reflexivity |]. split; [issued_eq |].
    split_and!; [reflexivity | left; reflexivity | reflexivity | right; split; reflexivity].
Qed.

Lemma posts_GET_id_run (id : string) (w : World) :
  exists r l w',
    posts_GET_id id w = (Normal r, w') /\
    issued w' = issued w ++ l /\
    heap w' = heap w /\
    (l = [] \/ exists pool, heap w !! dbReplica = Some (ODrizzle pool) /\
                l = [(pool, SelectPostById id)]) /\
    (Response.success r = true /\ Response.status r = 200%Z \/
     Response.success r = false /\
     (Response.status r = 404 \/ Response.status r = 500)%Z).
Proof.
  unfold posts_GET_id, try_catch, bind. rewrite execute_run.
  destruct (heap w !! dbReplica) as [[cfg | pool] |] eqn:Hh; cbn -[execute].
  - eexists _, [], _. split; [reflexivity |]. split; [issued_eq |].
    split_and!; [reflexivity | left; reflexivity | right; split; [reflexivity | auto]].
  - destruct (query_outcome w pool _) as [[| row rest] | e]; cbn -[execute].
    + eexists _, _, _. split; [reflexivity |]. split; [issued_eq |].
      split_and!; [reflexivity | right; exists pool; split; reflexivity
                  | right; split; [reflexivity | auto]].
    + eexists _, _, _. split; [reflexivity |]. split; [issued_eq |].
      split_and!; [reflexivity | right; exists pool; split; reflexivity
                  | left; split; reflexivity].
    + eexists _, _, _. split; [reflexivity |]. split; [issued_eq |].
      split_and!; [reflexivity | right; exists pool; split; reflexivity
                  | right; split; [reflexivity | auto]].
  - eexists _, [], _. split; [reflexivity |]. split; [issued_eq |].
    split_and!; [reflexivity | left; reflexivity | right; split; [reflexivity | auto]].
Qed.

Lemma posts_POST_run (body : NewPostBody.t) (user : User.t) (w : World) :
  exists r l w',
    posts_POST body user w = (Normal r, w') /\
    issued w' = issued w ++ l /\
    heap w' = heap w /\
    (l = [] \/ exists pool, heap w !! dbPrimary = Some (ODrizzle pool) /\
                l = [(pool, InsertPost (new_post_values body user))]) /\
    (Response.success r = true /\ Response.status r = 201%Z \/
     Response.success r = false /\ Response.status r = 400%Z).
Proof.
  unfold posts_POST, try_catch, bind. rewrite execute_run.
  destruct (heap w !! dbPrimary) as [[cfg | pool] |] eqn:Hh; cbn -[execute].
  - eexists _, [], _. split; [reflexivity |]. split; [issued_eq |].
    split_and!; [reflexivity | left; reflexivity | right; split; reflexivity].
  - destruct (query_outcome w pool _) as [rows | e]; cbn -[execute].
    + eexists _, _, _. split; [reflexivity |]. split; [issued_eq |].
      split_and!; [reflexivity | right; exists pool; split; reflexivity
                  | left; split; reflexivity].
    + eexists _, _, _. split; [reflexivity |]. split; [issued_eq |].
      split_and!; [reflexivity | right; exists pool; split; reflexivity
                  | right; split; reflexivity].
  - eexists _, [], _. split; [reflexivity |]. split; [issued_eq |].
    split_and!; [reflexivity | left; reflexivity | right; split; reflexivity].
Qed.

Lemma new_post_values_lookup (body : NewPostBody.t) (user : User.t) :
  new_post_values body user !! "authorId" = Some (VStr (User.id user)) /\
  new_post_values body user !! "title" = Some (VStr (NewPostBody.title body)) /\
  new_post_values body user !! "content" = Some (VStr (NewPostBody.content body)) /\
  new_post_values body user !! "published" =
    Some (VBool (or_false (NewPostBody.published body))).
Proof.
  unfold new_post_values. split_and!.
  - rewrite !lookup_insert_ne by done. apply lookup_singleton_eq.
  - apply lookup_insert_eq.
  - rewrite lookup_insert_ne by done. apply lookup_insert_eq.
  - rewrite !lookup_insert_ne by done. apply lookup_insert_eq.
Qed.



(** X5: GET /posts never asks the database for a limit of 0 or NaN: the
    limit it uses is the requested one when that is a non-zero number
    and 10 otherwise, the offset is the requested one or 0.  When the
    awaited query returns rows the answer carries them with
    [success: true] and echoes the limit and offset used; when it
    throws the answer is [success: false] with a fixed message and no
    pagination.  The status is 200 in both cases. *)
Theorem posts_GET_pagination (query : PostsQuery.t) (w : World) :
  exists limit offset r w',
    posts_GET query w = (Normal r, w') /\
    truthy_number limit = true /\
    offset <> NaN /\
    limit = match PostsQuery.limit query with
            | Some n => if truthy_number n then n else Num 10
            | None => Num 10
            end /\
    offset = match PostsQuery.offset query with
             | Some n => if truthy_number n then n else Num 0
             | None => Num 0
             end /\
    Forall (fun x => x.2 = SelectPosts (PostsQuery.published query) limit offset)
      (sent_by (posts_GET query) w) /\
    Response.status r = 200%Z /\
    r = match (execute dbReplica
                 (SelectPosts (PostsQuery.published query) limit offset) w).1 with
        | Normal rows =>
          Response.mk 200 true None None (Some (DataRows rows)) (Some (limit, offset))
        | Throw e => respond 200 false (Some "Failed to fetch posts")
        end.
Proof.
  exists (or_opt_number (PostsQuery.limit query) (Num 10)),
         (or_opt_number (PostsQuery.offset query) (Num 0)).
  assert (Hlimit : truthy_number (or_opt_number (PostsQuery.limit query) (Num 10)) = true).
  { unfold or_opt_number, or_number.
    destruct (PostsQuery.limit query) as [n |]; [| reflexivity].
    destruct (truthy_number n) eqn:Hn; [exact Hn | reflexivity]. }
  assert (Hoffset : or_opt_number (PostsQuery.offset query) (Num 0) <> NaN).
  { unfold or_opt_number, or_number.
    destruct (PostsQuery.offset query) as [[| z] |]; cbn; try discriminate.
    destruct (negb (z =? 0)%Z); discriminate. }
  unfold sent_by, posts_GET, try_catch, bind. rewrite execute_run.
  destruct (heap w !! dbReplica) as [[cfg | pool] |] eqn:Hh; cbn -[execute or_opt_number].
  - eexists _, _. split; [reflexivity |]. split_and!; try assumption; try reflexivity.
    rewrite drop_all. constructor.
  - destruct (query_outcome w pool _) as [rows | e]; cbn -[execute or_opt_number];
      (eexists _, _; split; [reflexivity |]; split_and!; try assumption; try reflexivity;
       rewrite drop_app_length; repeat constructor).
  - eexists _, _. split; [reflexivity |]. split_and!; try assumption; try reflexivity.
    rewrite drop_all. constructor.
Qed.

(** X6: with the module loaded, the statements of GET /posts and of
    GET /posts/:id go to the replica pool and never to the primary. *)
Theorem posts_reads_on_replica (query : PostsQuery.t) (id : string) (w : World) :
  loaded w ->
  Forall on_replica (sent_by (posts_GET query) w) /\
  Forall on_replica (sent_by (posts_GET_id id) w).
Proof.
  intros (HP & HR & Hne). split.
  - pose proof (posts_GET_run query w) as Hrun. cbv zeta in Hrun.
    destruct Hrun as (r & l & w' & Hrun & Hi & _ & Hl & _).
    rewrite (sent_by_app _ w l) by (rewrite Hrun; exact Hi).
    destruct Hl as [-> | (pool & Hh & ->)]; [constructor |].
    rewrite HR in Hh. injection Hh as <-.
    repeat constructor. cbn. congruence.
  - destruct (posts_GET_id_run id w) as (r & l & w' & Hrun & Hi & _ & Hl & _).
    rewrite (sent_by_app _ w l) by (rewrite Hrun; exact Hi).
    destruct Hl as [-> | (pool & Hh & ->)]; [constructor |].
    rewrite HR in Hh. injection Hh as <-.
    repeat constructor. cbn. congruence.
Qed.


Lemma posts_handler_run (r : PostsRequest) (user : User.t) (w : World) :
  exists resp l w',
    posts_handler r user w = (Normal resp, w') /\
    issued w' = issued w ++ l /\
    well_formed resp /\
    Response.status resp <> 401%Z /\
    (Response.success resp = true \/ Response.status resp <> 200%Z \/
     exists query, r = GET_posts query) /\
    Forall (fun x => is_adapter x.2 = false) l.
Proof.
  destruct r as [query | id | body | id body | id]; cbn [posts_handler].
  - pose proof (posts_GET_run query w) as Hrun. cbv zeta in Hrun.
    destruct Hrun as (r & l & w' & Hrun & Hi & _ & Hl & Hst & Hr).
    exists r, l, w'. split_and!; try assumption.
    + destruct Hr as [[Hs _] | [Hs _]]; [left | right]; (split; [exact Hs | auto]).
    + rewrite Hst. discriminate.
    + right. right. eexists. reflexivity.
    + destruct Hl as [-> | (pool & _ & ->)]; repeat constructor.
  - destruct (posts_GET_id_run id w) as (r & l & w' & Hrun & Hi & _ & Hl & Hr).
    exists r, l, w'. split_and!; try assumption.
    + destruct Hr as [[Hs Hst] | [Hs Hst]]; [left | right];
        (split; [exact Hs | intuition auto]).
    + destruct Hr as [[_ Hst] | [_ [Hst | Hst]]]; rewrite Hst; discriminate.
    + destruct Hr as [[Hs _] | [_ [Hst | Hst]]];
        [left; exact Hs | right; left; rewrite Hst; discriminate ..].
    + destruct Hl as [-> | (pool & _ & ->)]; repeat constructor.
  - destruct (posts_POST_run body user w) as (r & l & w' & Hrun & Hi & _ & Hl & Hr).
    exists r, l, w'. split_and!; try assumption.
    + destruct Hr as [[Hs Hst] | [Hs Hst]]; [left | right];
        (split; [exact Hs | intuition auto]).
    + destruct Hr as [[_ Hst] | [_ Hst]]; rewrite Hst; discriminate.
    + destruct Hr as [[Hs _] | [_ Hst]];
        [left; exact Hs | right; left; rewrite Hst; discriminate].
    + destruct Hl as [-> | (pool & _ & ->)]; repeat constructor.
  - destruct (posts_PATCH_id_run id body user w) as (r & l & w' & Hrun & Hi & Hcase).
    exists r, l, w'. split_and!; try assumption.
    + destruct Hcase as [(_ & _ & Hs & Hst) | (_ & pool & _ & _ & [[Hs Hst] | [Hs Hst]])];
        [right | left | right]; (split; [exact Hs | intuition auto]).
    + destruct Hcase as [(_ & _ & _ & [Hst | [Hst | Hst]])
                        | (_ & pool & _ & _ & [[_ Hst] | [_ Hst]])];
        rewrite Hst; discriminate.
    + destruct Hcase as [(_ & _ & _ & [Hst | [Hst | Hst]])
                        | (_ & pool & _ & _ & [[Hs _] | [_ Hst]])];
        first [ left; exact Hs | right; left; rewrite Hst; discriminate ].
    + destruct Hcase as [(_ & Hl & _) | (_ & pool & _ & -> & _)].
      * apply (Forall_weaken _ _ _ Hl). intros x ->. reflexivity.
      * repeat constructor.
  - destruct (posts_DELETE_id_run id user w) as (r & l & w' & Hrun & Hi & Hcase).
    exists r, l, w'. split_and!; try assumption.
    + destruct Hcase as [(_ & _ & Hs & Hst) | (_ & pool & _ & _ & [[Hs Hst] | [Hs Hst]])];
        [right | left | right]; (split; [exact Hs | intuition auto]).
    + destruct Hcase as [(_ & _ & _ & [Hst | [Hst | Hst]])
                        | (_ & pool & _ & _ & [[_ Hst] | [_ Hst]])];
        rewrite Hst; discriminate.
    + destruct Hcase as [(_ & _ & _ & [Hst | [Hst | Hst]])
                        | (_ & pool & _ & _ & [[Hs _] | [_ Hst]])];
        first [ left; exact Hs | right; left; rewrite Hst; discriminate ].
    + destruct Hcase as [(_ & Hl & _) | (_ & pool & _ & -> & _)].
      * apply (Forall_weaken _ _ _ Hl). intros x ->. reflexivity.
      * repeat constructor.
Qed.

End PostHandlers.

Section Routes.
Context `{Pg, Database, BetterAuth}.

Lemma run_adapter_sends {A} (db : loc) (r : LibRun A) (w : World) :
  exists l,
    issued (run_adapter db r w).2 = issued w ++ l /\
    Forall (fun x => is_adapter x.2 = true) l.
Proof.
  revert w. induction r as [c | text k IH]; intros w.
  - exists []. cbn. rewrite app_nil_r. split; [reflexivity | constructor].
  - cbn [run_adapter]. rewrite execute_run.
    destruct (heap w !! db) as [[cfg | pool] |].
    + apply IH.
    + destruct (IH (query_outcome w pool (AdapterStmt text))
                  (sent pool (AdapterStmt text) w)) as (l & Hi & Hl).
      exists ((pool, AdapterStmt text) :: l). rewrite Hi. cbn.
      rewrite <- app_assoc. split; [reflexivity |].
      constructor; [reflexivity | exact Hl].
    + apply IH.
Qed.

Lemma getUserFromSession_sends (headers : gmap string string) (w : World) :
  exists u l w',
    getUserFromSession headers w = (Normal u, w') /\
    issued w' = issued w ++ l /\
    Forall (fun x => is_adapter x.2 = true) l.
Proof.
  rewrite getUserFromSession_run. unfold auth_api_getSession, bind, get_world.
  destruct (run_adapter_sends auth_database (getSession_run w headers) w)
    as (l & Hi & Hl).
  destruct (run_adapter auth_database (getSession_run w headers) w) as [[s | e] w'];
    eexists _, l, _; (split; [reflexivity |]); split; assumption.
Qed.

Lemma onError_not_in_force (r : PostsRequest) :
  bool_decide (onError_handler ∈ hooks_of (route_of r) postRoutes_chain) = false.
Proof. destruct r; reflexivity. Qed.

Lemma postRoutes_run (request_headers : gmap string string) (r : PostsRequest)
    (w : World) :
  exists u w1,
    getUserFromSession (forwarded_headers request_headers) w = (Normal u, w1) /\
    match u with
    | Some user =>
      exists resp w',
        posts_handler r user w1 = (Normal resp, w') /\
        postRoutes request_headers r w = (Normal (Handled resp), w')
    | None =>
      postRoutes request_headers r w =
        (Normal
           (Unhandled (ThrownError (new_UnauthorizedError (Some "Authentication required")))),
         w1)
    end.
Proof.
  destruct (getUserFromSession_sends (forwarded_headers request_headers) w)
    as (u & l & w1 & Hu & _).
  exists u, w1. split; [exact Hu |].
  unfold postRoutes, authMiddleware, try_catch, bind.
  fold (forwarded_headers request_headers). rewrite onError_not_in_force, Hu.
  destruct u as [user |]; [| reflexivity]. cbn -[posts_handler].
  destruct (posts_handler_run r user w1) as (resp & l' & w' & Hrun & _).
  exists resp, w'. split; [exact Hrun |].
  rewrite Hrun. reflexivity.
Qed.


(** X9: a request to a post route for which no user is found sends no
    post statement at all: what it sends is exactly what the session
    lookup sent, all of it statements of the auth library. *)
Theorem unauthenticated_sends_no_post_statement
    (request_headers : gmap string string) (r : PostsRequest) (w : World) :
  (getUserFromSession (forwarded_headers request_headers) w).1 = Normal None ->
  Forall (fun x => is_adapter x.2 = true) (sent_by (postRoutes request_headers r) w) /\
  sent_by (postRoutes request_headers r) w =
    sent_by (getUserFromSession (forwarded_headers request_headers)) w.
Proof.
  intros Hnone.
  destruct (postRoutes_run request_headers r w) as (u & w1 & Hu & Hrun).
  destruct (getUserFromSession_sends (forwarded_headers request_headers) w)
    as (u' & l & w1' & Hu' & Hi & Hl).
  rewrite Hu in Hnone, Hu'. cbn in Hnone. injection Hnone as ->.
  injection Hu' as _ <-.
  rewrite (sent_by_app (postRoutes request_headers r) w l) by (rewrite Hrun; exact Hi).
  rewrite (sent_by_app (getUserFromSession _) w l) by (rewrite Hu; exact Hi).
  split; [exact Hl | reflexivity].
Qed.

(** X10: whatever the request, an INSERT sent while serving POST /posts
    has as [authorId] the id of the user of the session the auth library
    returned for the request's headers. *)
Theorem created_post_belongs_to_session_user
    (request_headers : gmap string string) (body : NewPostBody.t) (w : World) :
  Forall
    (fun x =>
       forall values, x.2 = InsertPost values ->
         exists s u,
           (auth_api_getSession (forwarded_headers request_headers) w).1
             = Normal (Some s) /\
           Session.user s = Some u /\
           values !! "authorId" = Some (VStr (User.id u)))
    (sent_by (postRoutes request_headers (POST_posts body)) w).
Proof.
  destruct (postRoutes_run request_headers (POST_posts body) w) as (u & w1 & Hu & Hrun).
  destruct (getUserFromSession_sends (forwarded_headers request_headers) w)
    as (u' & l & w1' & Hu' & Hi & Hl).
  rewrite Hu in Hu'. injection Hu' as <- <-.
  assert (Hadapter : Forall
            (fun x : loc * Stmt =>
               forall values, x.2 = InsertPost values ->
                 exists s u0,
                   (auth_api_getSession (forwarded_headers request_headers) w).1
                     = Normal (Some s) /\
                   Session.user s = Some u0 /\
                   values !! "authorId" = Some (VStr (User.id u0))) l).
  { apply (Forall_weaken _ _ _ Hl). intros x Hx values Hv.
    rewrite Hv in Hx. discriminate. }
  destruct u as [user |].
  - destruct Hrun as (resp & w'' & Hh & Hrun). cbn [posts_handler] in Hh.
    destruct (posts_POST_run body user w1) as (r & l' & w' & Hpost & Hi' & _ & Hl' & _).
    rewrite Hpost in Hh. injection Hh as <- <-.
    rewrite (sent_by_app _ w (l ++ l'))
      by (rewrite Hrun; cbn; rewrite Hi', Hi, app_assoc; reflexivity).
    apply Forall_app. split; [exact Hadapter |].
    destruct Hl' as [-> | (pool & _ & ->)]; [constructor |].
    constructor; [| constructor].
    intros values [= <-].
    rewrite getUserFromSession_run in Hu.
    destruct (auth_api_getSession (forwarded_headers request_headers) w)
      as [[[s |] | e] w0]; cbn in Hu; try discriminate.
    injection Hu as Hs _. exists s, user. split_and!; [reflexivity | exact Hs |].
    apply new_post_values_lookup.
  - rewrite (sent_by_app _ w l) by (rewrite Hrun; exact Hi). exact Hadapter.
Qed.

Lemma copy_header_lookup (key : string) (value : option string)
    (headers : gmap string string) (k : string) :
  copy_header key value headers !! k =
    match value with
    | Some v => if truthy_string v && bool_decide (key = k) then Some v else headers !! k
    | None => headers !! k
    end.
Proof.
  unfold copy_header. destruct value as [v |]; [| reflexivity].
  destruct (truthy_string v); cbn; [| reflexivity].
  case_bool_decide as Hk.
  - subst. apply lookup_insert_eq.
  - apply lookup_insert_ne. exact Hk.
Qed.

Lemma forwarded_headers_lookup (h : gmap string string) (k : string) :
  forwarded_headers h !! k =
    if bool_decide (k = "authorization" \/ k = "cookie") then kept (h !! k) else None.
Proof.
  unfold forwarded_headers, kept. rewrite !copy_header_lookup, lookup_empty.
  destruct (decide (k = "authorization")) as [-> | Ha];
    [| destruct (decide (k = "cookie")) as [-> | Hc]].
  - rewrite (bool_decide_true ("authorization" = "authorization" \/ _)) by (left; reflexivity).
    destruct (h !! "cookie") as [c |], (h !! "authorization") as [a |]; cbn;
      try destruct (truthy_string c); try destruct (truthy_string a); reflexivity.
  - rewrite (bool_decide_true ("cookie" = "authorization" \/ _)) by (right; reflexivity).
    destruct (h !! "cookie") as [c |], (h !! "authorization") as [a |]; cbn;
      try destruct (truthy_string c); try destruct (truthy_string a); reflexivity.
  - rewrite (bool_decide_false (k = "authorization" \/ k = "cookie")) by tauto.
    rewrite (bool_decide_false ("cookie" = k)) by congruence.
    rewrite (bool_decide_false ("authorization" = k)) by congruence.
    destruct (h !! "cookie"), (h !! "authorization");
      rewrite ?andb_false_r; reflexivity.
Qed.

(** X11: the middleware hands the auth library the [authorization] and
    [cookie] headers only, each only when non-empty: its outcome is the
    same on the request headers and on the headers so filtered. *)
Theorem authMiddleware_reads_two_headers (h : gmap string string) (w : World) :
  authMiddleware (forwarded_headers h) w = authMiddleware h w /\
  forall k,
    forwarded_headers h !! k =
      if bool_decide (k = "authorization" \/ k = "cookie") then kept (h !! k) else None.
Proof.
  split; [| apply forwarded_headers_lookup].
  assert (Hidem : forwarded_headers (forwarded_headers h) = forwarded_headers h).
  { apply map_eq. intros k. rewrite !forwarded_headers_lookup.
    case_bool_decide; [| reflexivity].
    unfold kept. destruct (h !! k) as [v |]; [| reflexivity].
    destruct (truthy_string v) eqn:Hv; [rewrite Hv |]; reflexivity. }
  unfold authMiddleware. fold (forwarded_headers (forwarded_headers h)).
  fold (forwarded_headers h). rewrite Hidem. reflexivity.
Qed.

End Routes.

Section Pools.
Context `{Process, Builtins}.

Lemma or_string_filled (x : option string) (d : string) :
  d <> "" -> or_string x d <> "".
Proof.
  intros Hd. unfold or_string, truthy_string. destruct x as [s |]; [| exact Hd].
  case_bool_decide; cbn; assumption.
Qed.

Lemma or_number_truthy (x d : number) :
  truthy_number d = true -> truthy_number (or_number x d) = true.
Proof.
  intros Hd. unfold or_number. destruct (truthy_number x) eqn:Hx; assumption.
Qed.

Lemma createPool_built (config : DatabaseConfig.t) (w : World) :
  built_config (createPool config) w =
    Some {| PoolConfig.host := DatabaseConfig.host config;
            PoolConfig.port := DatabaseConfig.port config;
            PoolConfig.database := DatabaseConfig.database config;
            PoolConfig.user := DatabaseConfig.user config;
            PoolConfig.password := DatabaseConfig.password config;
            PoolConfig.max := nullish (DatabaseConfig.max config) (Num 20);
            PoolConfig.idleTimeoutMillis :=
              nullish (DatabaseConfig.idleTimeoutMillis config) (Num 30000);
            PoolConfig.connectionTimeoutMillis :=
              nullish (DatabaseConfig.connectionTimeoutMillis config) (Num 5000);
            PoolConfig.ssl := process_ssl |}.
Proof.
  unfold built_config, pool_config, createPool, alloc. cbn.
  rewrite list_lookup_middle by reflexivity. reflexivity.
Qed.

Lemma database_ts_pools (w : World) :
  exists (d : Database) (w' : World) (pcP pcR : PoolConfig.t),
    database_ts w = (Normal d, w') /\
    pool_config w' (@primaryPool d) = Some pcP /\
    pool_config w' (@replicaPool d) = Some pcR /\
    built_config (createPool primaryConfig) w = Some pcP /\
    built_config (createPool replicaConfig) w = Some pcR.
Proof.
  destruct (database_ts_run w) as (pcP & pcR & Hrun & HbP & HbR).
  eexists _, _, pcP, pcR. split; [exact Hrun |].
  unfold pool_config. cbn. split_and!; try assumption.
  - replace (length (heap w)) with (length (heap w) + 0) at 1 by lia.
    rewrite (lookup_past (heap w) 0 _ (OPool pcP)) by reflexivity. reflexivity.
  - replace (S (length (heap w))) with (length (heap w) + 1) by lia.
    rewrite (lookup_past (heap w) 1 _ (OPool pcR)) by reflexivity. reflexivity.
Qed.

(** X12: whatever the environment, the two pools of the module are
    built with a port that is neither 0 nor NaN and a non-empty host,
    database name and user, and with the same database name, user and
    password for both. *)
Theorem module_pools_endpoints (w : World) :
  exists (d : Database) (w' : World) (pcP pcR : PoolConfig.t),
    database_ts w = (Normal d, w') /\
    pool_config w' (@primaryPool d) = Some pcP /\
    pool_config w' (@replicaPool d) = Some pcR /\
    truthy_number (PoolConfig.port pcP) = true /\
    truthy_number (PoolConfig.port pcR) = true /\
    PoolConfig.host pcP <> "" /\
    PoolConfig.host pcR <> "" /\
    PoolConfig.database pcP <> "" /\
    PoolConfig.user pcP <> "" /\
    PoolConfig.database pcP = PoolConfig.database pcR /\
    PoolConfig.user pcP = PoolConfig.user pcR /\
    PoolConfig.password pcP = PoolConfig.password pcR.
Proof.
  destruct (database_ts_pools w) as (d & w' & pcP & pcR & Hrun & HP & HR & HbP & HbR).
  rewrite createPool_built in HbP, HbR.
  injection HbP as <-. injection HbR as <-.
  eexists d, w', _, _. split; [exact Hrun |]. split; [exact HP |]. split; [exact HR |].
  cbn. split_and!; try reflexivity;
    first [ apply or_number_truthy; reflexivity | apply or_string_filled; discriminate ].
Qed.

(** X13: whatever the environment, both pools of the module are built
    with [max = 20], [idleTimeoutMillis = 30000] and
    [connectionTimeoutMillis = 5000]: no environment variable changes
    them. *)
Theorem module_pools_sizes (w : World) :
  exists (d : Database) (w' : World) (pcP pcR : PoolConfig.t),
    database_ts w = (Normal d, w') /\
    pool_config w' (@primaryPool d) = Some pcP /\
    pool_config w' (@replicaPool d) = Some pcR /\
    PoolConfig.max pcP = Num 20 /\
    PoolConfig.idleTimeoutMillis pcP = Num 30000 /\
    PoolConfig.connectionTimeoutMillis pcP = Num 5000 /\
    PoolConfig.max pcR = Num 20 /\
    PoolConfig.idleTimeoutMillis pcR = Num 30000 /\
    PoolConfig.connectionTimeoutMillis pcR = Num 5000.
Proof.
  destruct (database_ts_pools w) as (d & w' & pcP & pcR & Hrun & HP & HR & HbP & HbR).
  rewrite createPool_built in HbP, HbR.
  injection HbP as <-. injection HbR as <-.
  eexists d, w', _, _. split; [exact Hrun |]. split; [exact HP |]. split; [exact HR |].
  cbn. split_and!; reflexivity.
Qed.

End Pools.

Section HealthAndShutdown.
Context `{Pg, Database}.

Lemma run_calls_no_shutdown (cs : list Call) (w : World) :
  Forall (fun c => is_shutdown c = false) cs ->
  ending (run_calls cs w) = ending w.
Proof.
  revert w. induction cs as [| c cs IH]; intros w Hcs; [reflexivity |].
  inversion Hcs as [| c' cs' Hc Hcs']; subst. cbn.
  fold (run_calls cs (run_call c w)). rewrite (IH _ Hcs').
  destruct c; cbn [run_call]; [reflexivity | | discriminate].
  apply checkDatabaseHealth_keeps.
Qed.

(** X14: when the success of a probe depends on the moment only through
    the pools already ended, the health check reports the same flags
    after any sequence of calls to [getDatabase] and
    [checkDatabaseHealth]: the check keeps no state of its own. *)
Theorem checkDatabaseHealth_repeatable (cs : list Call) (w : World) :
  probes_follow_ending ->
  Forall (fun c => is_shutdown c = false) cs ->
  (checkDatabaseHealth (run_calls cs w)).1 = (checkDatabaseHealth w).1.
Proof.
  intros Hprobe Hcs. pose proof (run_calls_no_shutdown cs w Hcs) as He.
  rewrite !checkDatabaseHealth_run. cbn [fst].
  f_equal. f_equal; apply Hprobe; cbn; exact He.
Qed.

Lemma Promise_all_pair {A} (p1 p2 : Promise A) :
  is_normal (settled (Promise_all [p1; p2])) =
    is_normal (settled p1) && is_normal (settled p2).
Proof.
  unfold Promise_all, first_rejection.
  destruct (settled p1), (settled p2); cbn; try reflexivity.
  destruct (_ <=? _)%nat; reflexivity.
Qed.

Lemma closeDatabaseConnections_outcome (w : World) :
  let w1 := logged (console_log "Closing database connections...") w in
  exists w',
    ending w' = ending w ++ [primaryPool; replicaPool] /\
    ((both_end_fulfil w1 /\ closeDatabaseConnections w = (Normal tt, w')) \/
     (~ both_end_fulfil w1 /\ exists e, closeDatabaseConnections w = (Throw e, w'))).
Proof.
  cbv zeta. rewrite closeDatabaseConnections_run. cbv zeta. unfold both_end_fulfil.
  pose proof (Promise_all_pair
                (end_outcome (logged (console_log "Closing database connections...") w)
                   primaryPool)
                (end_outcome
                   (ended primaryPool
                      (logged (console_log "Closing database connections...") w))
                   replicaPool)) as Hall.
  destruct (settled (Promise_all _)) as [vs | e]; cbn in Hall;
    symmetry in Hall.
  - apply andb_true_iff in Hall. eexists. split; [| left; split; [exact Hall | reflexivity]].
    cbn. rewrite <- app_assoc. reflexivity.
  - apply andb_false_iff in Hall. eexists.
    split; [| right; split; [| exists e; reflexivity]].
    + cbn. rewrite <- app_assoc. reflexivity.
    + intros [H1 H2]. destruct Hall as [Hall | Hall]; congruence.
Qed.

(** X15: [gracefulShutdown] always ends in [process.exit], with code 0
    exactly when both [end()] promises fulfil and with code 1 otherwise;
    [end()] has been called on both pools by then. *)
Theorem gracefulShutdown_exit_code (signal : string) (w : World) :
  let w0 :=
    logged (console_log (newline +:+ signal +:+ " received. Starting graceful shutdown..."))
      w in
  let w1 := logged (console_log "Closing database connections...") w0 in
  exists code w',
    gracefulShutdown signal w = (Exits code, w') /\
    (code = 0 \/ code = 1)%Z /\
    (code = 0%Z <-> both_end_fulfil w1) /\
    ending w' = ending w ++ [primaryPool; replicaPool].
Proof.
  cbv zeta. unfold gracefulShutdown, log, log_error.
  destruct (closeDatabaseConnections_outcome
              (logged (console_log (newline +:+ signal +:+
                                      " received. Starting graceful shutdown...")) w))
    as (w' & He & [[Hok ->] | [Hko [e ->]]]).
  - eexists _, _. split; [reflexivity |]. split_and!; [auto | tauto | exact He].
  - eexists _, _. split; [reflexivity |]. split_and!; [auto | | exact He].
    split; [discriminate | intros Hb; destruct (Hko Hb)].
Qed.

(** X16: the inline signal handler calls [process.exit(0)] when both
    [end()] promises fulfil; when one rejects it never calls
    [process.exit]: the handler's promise rejects instead. *)
Theorem on_signal_exit (w : World) :
  let w0 := logged (console_log (newline +:+ "Shutting down...")) w in
  let w1 := logged (console_log "Closing database connections...") w0 in
  exists w',
    ending w' = ending w ++ [primaryPool; replicaPool] /\
    ((both_end_fulfil w1 /\ on_signal w = (Exits 0, w')) \/
     (~ both_end_fulfil w1 /\ exists e, on_signal w = (Rejects e, w'))).
Proof.
  cbv zeta. unfold on_signal, bind, log.
  destruct (closeDatabaseConnections_outcome
              (logged (console_log (newline +:+ "Shutting down...")) w))
    as (w' & He & [[Hok ->] | [Hko [e ->]]]).
  - exists w'. split; [exact He |]. left. split; [exact Hok | reflexivity].
  - exists w'. split; [exact He |]. right. split; [exact Hko |]. exists e. reflexivity.
Qed.

(** X17: in the same world GET /health/db answers with the same status
    and [success] as GET /health, and its per-pool [healthy] flags are
    the flags of the health report. *)
Theorem health_db_GET_agrees (w : World) :
  exists r1 r2 w',
    health_GET w = (Normal r1, w') /\
    health_db_GET w = (Normal r2, w') /\
    HealthDbResponse.status r2 = HealthResponse.status r1 /\
    HealthDbResponse.success r2 = HealthResponse.success r1 /\
    exists up_primary up_replica,
      (checkDatabaseHealth w).1 =
        Normal {| Health.primary := up_primary; Health.replica := up_replica |} /\
      HealthDbResponse.primary r2 = Some (connected up_primary, up_primary) /\
      HealthDbResponse.replica r2 = Some (connected up_replica, up_replica) /\
      HealthResponse.database r1 = Some (connected up_primary, connected up_replica) /\
      HealthDbResponse.success r2 = up_primary && up_replica.
Proof.
  pose proof (checkDatabaseHealth_run w) as Hrun. cbv zeta in Hrun.
  unfold health_GET, health_db_GET, try_catch, bind, new_Date, ret.
  rewrite Hrun. cbn.
  eexists _, _, _. split; [reflexivity |]. split; [reflexivity |].
  cbn. split_and!; try reflexivity.
  eexists _, _. split_and!; reflexivity.
Qed.

End HealthAndShutdown.

Section AuthRoutes.
Context `{Pg, Database, BetterAuth, BetterAuthApi}.

(** X18: GET /auth/me succeeds exactly when the middleware does, with
    the same user: it answers 200 with that user when the middleware
    returns one and 401 ["Unauthorized"] when the middleware throws
    [UnauthorizedError]. *)
Theorem auth_GET_me_agrees (h : gmap string string) (w : World) :
  exists u w1,
    getUserFromSession (forwarded_headers h) w = (Normal u, w1) /\
    match u with
    | Some user =>
      authMiddleware h w = (Normal user, w1) /\
      auth_GET_me h w =
        (Normal (AuthResponse.mk 200 true None None (Some (DataUser user))), w1)
    | None =>
      authMiddleware h w =
        (Throw (ThrownError (new_UnauthorizedError (Some "Authentication required"))), w1) /\
      auth_GET_me h w =
        (Normal (AuthResponse.mk 401 false (Some "Unauthorized") None None), w1)
    end.
Proof.
  destruct (getUserFromSession_sends (forwarded_headers h) w)
    as (u & l & w1 & Hu & _).
  exists u, w1. split; [exact Hu |].
  unfold auth_GET_me, authMiddleware, try_catch, bind.
  fold (forwarded_headers h). rewrite Hu.
  destruct u; split; reflexivity.
Qed.

(** X19: POST /auth/login answers 200 with the library's response
    exactly when [signInEmail] resolves to a response; when it resolves
    to nothing or throws the answer is 401 with [success: false]. *)
Theorem auth_POST_login_status (body : LoginBody.t) (h : gmap string string)
    (w : World) :
  exists r w',
    auth_POST_login body h w = (Normal r, w') /\
    ((exists response,
        (auth_api_signInEmail body h w).1 = Normal (Some response) /\
        AuthResponse.status r = 200%Z /\
        AuthResponse.success r = true /\
        AuthResponse.data r = Some (DataResponse response)) \/
     ((forall response, (auth_api_signInEmail body h w).1 <> Normal (Some response)) /\
      AuthResponse.status r = 401%Z /\
      AuthResponse.success r = false /\
      AuthResponse.data r = None)).
Proof.
  unfold auth_POST_login, try_catch, bind at 1.
  destruct body as [email password]. cbn [LoginBody.email LoginBody.password].
  destruct (auth_api_signInEmail _ h w) as [[[response |] | e] w1]; cbn.
  - eexists _, _. split; [reflexivity |]. left. exists response. split_and!; reflexivity.
  - eexists _, _. split; [reflexivity |]. right. split_and!; try reflexivity.
    intros response. discriminate.
  - eexists _, _. split; [reflexivity |]. right. split_and!; try reflexivity.
    intros response. discriminate.
Qed.

(** X20: POST /auth/signup and POST /auth/logout never throw and always
    answer 200; only [success] tells whether the library call went
    through. *)
Theorem auth_signup_logout_always_200 (body : SignUpBody.t) (h : gmap string string)
    (w : World) :
  (exists r w',
     auth_POST_signup body h w = (Normal r, w') /\
     AuthResponse.status r = 200%Z /\
     AuthResponse.success r =
       match (auth_api_signUpEmail body h w).1 with
       | Normal (Some _) => true
       | _ => false
       end) /\
  (exists r w',
     auth_POST_logout h w = (Normal r, w') /\
     AuthResponse.status r = 200%Z /\
     AuthResponse.success r = is_normal (auth_api_signOut h w).1).
Proof.
  split.
  - unfold auth_POST_signup, try_catch, bind at 1.
    destruct body as [email password name].
    cbn [SignUpBody.email SignUpBody.password SignUpBody.name].
    destruct (auth_api_signUpEmail _ h w) as [[[response |] | e] w1]; cbn;
      eexists _, _; split_and!; reflexivity.
  - unfold auth_POST_logout, try_catch, bind at 1.
    destruct (auth_api_signOut h w) as [[response | e] w1]; cbn;
      eexists _, _; split_and!; reflexivity.
Qed.

Lemma pinned_api {A} (run : World -> LibRun A) :
  pinned (w <- get_world ;; run_adapter auth_database (run w)).
Proof.
  unfold auth_database. apply pinned_bind.
  - apply pinned_quiet. intros w. split; reflexivity.
  - intros w. apply pinned_run_adapter.
Qed.

(** X21: with the module loaded, every statement sent while serving
    an auth route goes to the primary pool. *)
Theorem auth_routes_on_primary (signup : SignUpBody.t) (login : LoginBody.t)
    (h : gmap string string) (w : World) :
  loaded w ->
  Forall on_primary (sent_by (auth_POST_signup signup h) w) /\
  Forall on_primary (sent_by (auth_POST_login login h) w) /\
  Forall on_primary (sent_by (auth_POST_logout h) w) /\
  Forall on_primary (sent_by (auth_GET_me h) w).
Proof.
  intros Hw. split_and!; apply pinned_sent_by; try exact Hw.
  - unfold auth_POST_signup. apply pinned_try_catch.
    + apply pinned_bind; [apply pinned_api |].
      intros [r |]; apply pinned_ret.
    + intros e. apply pinned_bind; [apply pinned_log_error | intros; apply pinned_ret].
  - unfold auth_POST_login. apply pinned_try_catch.
    + apply pinned_bind; [apply pinned_api |].
      intros [r |]; apply pinned_ret.
    + intros e. apply pinned_bind; [apply pinned_log_error | intros; apply pinned_ret].
  - unfold auth_POST_logout. apply pinned_try_catch.
    + apply pinned_bind; [apply pinned_api | intros; apply pinned_ret].
    + intros e. apply pinned_bind; [apply pinned_log_error | intros; apply pinned_ret].
  - unfold auth_GET_me. apply pinned_try_catch.
    + apply pinned_bind.
      * unfold getUserFromSession. apply pinned_bind; [| intros; apply pinned_ret].
        unfold verifySession. apply pinned_try_catch.
        -- apply pinned_bind; [apply pinned_auth_api_getSession |].
           intros [s |]; apply pinned_ret.
        -- intros e. apply pinned_bind; [apply pinned_log_error | intros; apply pinned_ret].
      * intros [u |]; apply pinned_ret.
    + intros e. apply pinned_bind; [apply pinned_log_error | intros; apply pinned_ret].
Qed.

End AuthRoutes.

(** ** Concrete cases *)

Module Cases.
Import Sample Scenario.

Lemma posts_reads_on_replica_witness :
  @loaded database live_world /\
  Forall (@on_replica database)
    (sent_by (@posts_GET pg_up database (PostsQuery.mk None None None)) live_world) /\
  Forall (@on_replica database)
    (sent_by (@posts_GET_id pg_up database "p1") live_world).
Proof.
  split; [exact Runs.live_world_loaded |].
  apply (@posts_reads_on_replica pg_up database (PostsQuery.mk None None None) "p1"
           live_world Runs.live_world_loaded).
Defined.



Lemma no_cookie_no_user :
  (@getUserFromSession pg_up database better_auth (forwarded_headers ∅) live_world).1
  = Normal None.
Proof. vm_compute. reflexivity. Defined.

Lemma unauthenticated_sends_no_post_statement_witness :
  (@getUserFromSession pg_up database better_auth (forwarded_headers ∅) live_world).1
    = Normal None /\
  Forall (fun x => is_adapter x.2 = true)
    (sent_by (@postRoutes pg_up database better_auth ∅ (DELETE_posts_id "p1"))
       live_world) /\
  sent_by (@postRoutes pg_up database better_auth ∅ (DELETE_posts_id "p1")) live_world =
    sent_by (@getUserFromSession pg_up database better_auth (forwarded_headers ∅))
      live_world.
Proof.
  split; [exact no_cookie_no_user |].
  apply (@unauthenticated_sends_no_post_statement pg_up database better_auth ∅
           (DELETE_posts_id "p1") live_world no_cookie_no_user).
Defined.

Lemma pg_refuses_after_end_follows : @probes_follow_ending pg_refuses_after_end.
Proof. intros w1 w2 pool s He. cbn. rewrite He. reflexivity. Defined.

Lemma no_shutdown_among :
  Forall (fun c => is_shutdown c = false)
    [call_checkDatabaseHealth; call_getDatabase false; call_checkDatabaseHealth].
Proof. repeat constructor. Defined.

Lemma checkDatabaseHealth_repeatable_witness :
  @probes_follow_ending pg_refuses_after_end /\
  Forall (fun c => is_shutdown c = false)
    [call_checkDatabaseHealth; call_getDatabase false; call_checkDatabaseHealth] /\
  (@checkDatabaseHealth pg_refuses_after_end database
     (@run_calls pg_refuses_after_end database
        [call_checkDatabaseHealth; call_getDatabase false; call_checkDatabaseHealth]
        live_world)).1
  = (@checkDatabaseHealth pg_refuses_after_end database live_world).1.
Proof.
  split; [exact pg_refuses_after_end_follows |]. split; [exact no_shutdown_among |].
  apply (@checkDatabaseHealth_repeatable pg_refuses_after_end database
           [call_checkDatabaseHealth; call_getDatabase false; call_checkDatabaseHealth]
           live_world pg_refuses_after_end_follows no_shutdown_among).
Defined.

(** A shutdown is not such a call: with a pool that rejects queries
    after [end()] the report changes. *)
Example checkDatabaseHealth_after_shutdown :
  (@checkDatabaseHealth pg_refuses_after_end database live_world).1
    = Normal {| Health.primary := false; Health.replica := true |} /\
  (@checkDatabaseHealth pg_refuses_after_end database
     (@run_calls pg_refuses_after_end database [call_closeDatabaseConnections]
        live_world)).1
    = Normal {| Health.primary := false; Health.replica := false |}.
Proof. split; vm_compute; reflexivity. Qed.

Lemma auth_routes_on_primary_witness :
  @loaded database live_world /\
  Forall (@on_primary database)
    (sent_by (@auth_POST_signup pg_up database better_auth_api signup with_cookie)
       live_world) /\
  Forall (@on_primary database)
    (sent_by (@auth_POST_login pg_up database better_auth_api login with_cookie)
       live_world) /\
  Forall (@on_primary database)
    (sent_by (@auth_POST_logout pg_up database better_auth_api with_cookie)
       live_world) /\
  Forall (@on_primary database)
    (sent_by (@auth_GET_me pg_up database better_auth with_cookie) live_world).
Proof.
  split; [exact Runs.live_world_loaded |].
  apply (@auth_routes_on_primary pg_up database better_auth better_auth_api signup login
           with_cookie live_world Runs.live_world_loaded).
Defined.

(** The author updates a post: a read, then a write, both on pool 0. *)
Example author_updates :
  @author_confirmed pg_up database "p1" alice live_world = true /\
  is_write <$> (snd <$> sent_by (@posts_PATCH_id pg_up database "p1" retitle alice)
                          live_world)
  = [false; true].
Proof. split; vm_compute; reflexivity. Qed.

(** Someone else tries: the read only, answered 403. *)
Example stranger_is_refused :
  @author_confirmed pg_up database "p1" bob live_world = false /\
  (@posts_PATCH_id pg_up database "p1" retitle bob live_world).1
    = Normal (respond 403 false (Some "You can only update your own posts")) /\
  length (sent_by (@posts_PATCH_id pg_up database "p1" retitle bob) live_world) = 1.
Proof. split_and!; vm_compute; reflexivity. Qed.

End Cases.
